(** * A shallow embedding of [src/image_processing/train.py]

    The script trains a multi-head CNN on captcha images.  Three pieces are
    modelled here, each from the Python source:

    - [create_model]: the Keras functional graph, as a symbolic tensor tree;
    - [ImageSequence]: the data feeder, as a record for the object's
      attributes and functions that thread it explicitly (the object keeps
      its mutations when a method raises, so every method returns the
      object next to its result);
    - [main]: the driver, as a function to a trace of backend calls and a
      result ([exit] raises [SystemExit], as in Python).

    What the script reads from outside (directory listings, the random
    generator, decoded images, the Keras backend) is an explicit input of
    the functions, universally quantified in the theorems.

    Python [int] is [Z]; [str] is [string] (one [ascii] per character);
    a [dict] is an association list in insertion order; a numpy array of
    rank 2 is a list of rows. *)

From Stdlib Require Import ZArith QArith Qround String Ascii List DecimalString Lia.
From Stdlib Require Import DecimalZ.
From stdpp Require Import base list strings.

Local Open Scope string_scope.
Local Open Scope list_scope.

(** ** Exceptions and fallible results *)

Inductive exn : Type :=
| IndexError
| KeyError
| ValueError
| ZeroDivisionError
| OSError
| cv2_error
| KeyboardInterrupt
| SystemExit (code : Z)
| BackendError (what : string).

Inductive result (A : Type) : Type :=
| Ok (a : A)
| Raise (e : exn).
Arguments Ok {A} a.
Arguments Raise {A} e.

Definition bind {A B : Type} (m : result A) (k : A -> result B) : result B :=
  match m with
  | Ok a => k a
  | Raise e => Raise e
  end.

Declare Scope result_scope.
Delimit Scope result_scope with result.
Notation "x <- m ;; k" := (bind m (fun x => k))
  (at level 100, m at next level, right associativity) : result_scope.

Fixpoint mapM {A B : Type} (f : A -> result B) (l : list A) : result (list B) :=
  match l with
  | [] => Ok []
  | a :: l' =>
      match f a with
      | Raise e => Raise e
      | Ok b =>
          match mapM f l' with
          | Raise e => Raise e
          | Ok bs => Ok (b :: bs)
          end
      end
  end.

(** ** The Python built-ins the script uses *)

Module Python.

(** [len(l)] *)
Definition len {A : Type} (l : list A) : Z := Z.of_nat (length l).

(** [range(n)]: empty when [n <= 0]. *)
Definition range (n : Z) : list Z := map Z.of_nat (seq 0 (Z.to_nat n)).

(** [enumerate(l, start)] and [enumerate(l)] *)
Fixpoint enumerate_from {A : Type} (start : Z) (l : list A) : list (Z * A) :=
  match l with
  | [] => []
  | a :: l' => (start, a) :: enumerate_from (start + 1)%Z l'
  end.

Definition enumerate {A : Type} (l : list A) : list (Z * A) := enumerate_from 0 l.

(** [[x] * n]: the empty list when [n <= 0]. *)
Definition list_mul {A : Type} (x : A) (n : Z) : list A := replicate (Z.to_nat n) x.

(** [l[i]] on a list, for the non-negative indices the script produces. *)
Definition getitem {A : Type} (l : list A) (i : nat) : result A :=
  match l !! i with
  | Some a => Ok a
  | None => Raise IndexError
  end.

(** [s.split(sep)] for a one-character separator: the fields between the
    occurrences of [sep]; never the empty list. *)
Fixpoint split (sep : ascii) (s : string) : list string :=
  match s with
  | EmptyString => [EmptyString]
  | String c s' =>
      if Ascii.eqb c sep then EmptyString :: split sep s'
      else match split sep s' with
           | [] => [String c EmptyString]
           | w :: ws => String c w :: ws
           end
  end.

(** [s.split(sep)[0]] *)
Definition split0 (sep : ascii) (s : string) : string :=
  match split sep s with
  | w :: _ => w
  | [] => EmptyString
  end.

(** [s.find(ch)] for a one-character [ch]: the index of its first
    occurrence, [-1] when there is none. *)
Fixpoint find_from (s : string) (ch : ascii) (pos : Z) : Z :=
  match s with
  | EmptyString => (-1)%Z
  | String c s' => if Ascii.eqb c ch then pos else find_from s' ch (pos + 1)%Z
  end.

Definition find (s : string) (ch : ascii) : Z := find_from s ch 0.

(** ['%d' % n] *)
Definition format_d (n : Z) : string := NilEmpty.string_of_int (Z.to_int n).

(** *** [dict] with [str] keys and values, in insertion order *)

Abbreviation dict := (list (string * string)).

(** [d[k] = v]: an existing key keeps its place and takes the new value. *)
Fixpoint dict_set (d : dict) (k v : string) : dict :=
  match d with
  | [] => [(k, v)]
  | (k', v') :: d' =>
      if String.eqb k' k then (k', v) :: d' else (k', v') :: dict_set d' k v
  end.

(** [dict(pairs)] *)
Definition dict_of (pairs : list (string * string)) : dict :=
  fold_left (fun d kv => dict_set d (fst kv) (snd kv)) pairs [].

(** [list(d.keys())] *)
Definition keys (d : dict) : list string := map fst d.

Definition values (d : dict) : list string := map snd d.

(** [d[k]] *)
Fixpoint dict_get (d : dict) (k : string) : result string :=
  match d with
  | [] => Raise KeyError
  | (k', v') :: d' => if String.eqb k' k then Ok v' else dict_get d' k
  end.

Fixpoint dict_del (d : dict) (k : string) : dict :=
  match d with
  | [] => []
  | (k', v') :: d' => if String.eqb k' k then d' else (k', v') :: dict_del d' k
  end.

(** [d.pop(k)]: the value and the dict without the key. *)
Definition dict_pop (d : dict) (k : string) : result (string * dict) :=
  match dict_get d k with
  | Ok v => Ok (v, dict_del d k)
  | Raise e => Raise e
  end.

(** [random.choice(seq)] when the generator's draw is [r]: every element
    of a non-empty [seq] is the choice for some [r]. *)
Definition random_choice {A : Type} (r : nat) (seq : list A) : result A :=
  match seq with
  | [] => Raise IndexError
  | _ => getitem seq (r mod length seq)
  end.

End Python.

(** ** The numpy operations the feeder uses *)

Module numpy.

(** A rank-2 [uint8] array: a list of rows. *)
Abbreviation ndarray2 := (list (list Z)).

(** [numpy.zeros((r, c), dtype=uint8)].  What numpy raises when an array
    of that size cannot be allocated is not modelled. *)
Definition zeros (r c : Z) : result ndarray2 :=
  if ((r <? 0) || (c <? 0))%Z then Raise ValueError
  else Ok (replicate (Z.to_nat r) (replicate (Z.to_nat c) 0%Z)).

(** An index into an axis of size [n]: negative indices count from the
    end, anything outside [-n, n) is an [IndexError]. *)
Definition axis_index (n : nat) (k : Z) : result nat :=
  if ((0 <=? k) && (k <? Z.of_nat n))%Z then Ok (Z.to_nat k)
  else if ((- Z.of_nat n <=? k) && (k <? 0))%Z then Ok (Z.to_nat (k + Z.of_nat n))
  else Raise IndexError.

(** [a[i, :] = v] *)
Definition set_row (a : ndarray2) (i : Z) (v : Z) : result ndarray2 :=
  (i' <- axis_index (length a) i ;;
   row <- Python.getitem a i' ;;
   Ok (<[i' := replicate (length row) v]> a))%result.

(** [a[i, k] = v] *)
Definition set_item (a : ndarray2) (i k : Z) (v : Z) : result ndarray2 :=
  (i' <- axis_index (length a) i ;;
   row <- Python.getitem a i' ;;
   k' <- axis_index (length row) k ;;
   Ok (<[i' := <[k' := v]> row]> a))%result.

(** [a.sum()] over one row. *)
Definition row_sum (row : list Z) : Z := fold_right Z.add 0%Z row.

(** [numpy.floor(a / b)] on two Python ints, then [int(...)].  The true
    division is taken over the rationals: for a positive [b] and an [a]
    below [2^53], as the length of a directory listing is, the quotient
    and its binary64 rounding have the same floor.  Outside that range
    the code rounds before it takes the floor and the two can differ. *)
Definition floor_div (a b : Z) : result Z :=
  if (b =? 0)%Z then Raise ZeroDivisionError
  else Ok (Qfloor (inject_Z a / inject_Z b)).

End numpy.

(** ** [create_model]: the Keras functional graph *)

Module keras.

(** The layer constructors the script calls, with the arguments it passes. *)
Inductive layer : Type :=
| Conv2D (filters kernel_size : Z) (padding kernel_initializer : string)
| BatchNormalization
| Activation (activation : string)
| MaxPooling2D (pool_size : Z)
| Flatten
| Dense (units : Z) (activation name : string).

(** A symbolic tensor: the model input, or a layer called on a tensor. *)
Inductive tensor : Type :=
| Input (shape : list Z)
| Call (l : layer) (x : tensor).

Record Model : Type := { inputs : tensor; outputs : list tensor }.

(** The layers on the path from the input to a tensor, outermost first. *)
Fixpoint layers_of (x : tensor) : list layer :=
  match x with
  | Input _ => []
  | Call l x' => l :: layers_of x'
  end.

Definition is_Dense (l : layer) : bool :=
  match l with
  | Dense _ _ _ => true
  | _ => false
  end.

End keras.

Import keras.

(** Lines 24-27: one convolution, normalisation and activation. *)
Definition conv_unit (i : Z) (x : tensor) : tensor :=
  let x := Call (Conv2D (32 * 2 ^ Z.min i 3) 3 "same" "he_uniform") x in
  let x := Call BatchNormalization x in
  Call (Activation "relu") x.

(** Lines 23-28: the inner loop and the pooling that closes a module. *)
Definition conv_module (x : tensor) (im : Z * Z) : tensor :=
  let '(i, module_length) := im in
  let x := fold_left (fun x _ => conv_unit i x) (Python.range module_length) x in
  Call (MaxPooling2D 2) x.

(** Lines 20-30: the value of [x] after [Flatten]. *)
Definition trunk (input_shape : list Z) (model_depth module_size : Z) : tensor :=
  let x := Input input_shape in
  let x := fold_left conv_module
             (Python.enumerate (Python.list_mul module_size model_depth)) x in
  Call Flatten x.

Definition create_model (captcha_length captcha_num_symbols : Z)
    (input_shape : list Z) (model_depth module_size : Z) : Model :=
  let x := trunk input_shape model_depth module_size in
  let x := map (fun i => Call (Dense captcha_num_symbols "softmax"
                                 ("char_" ++ Python.format_d (i + 1))%string) x)
               (Python.range captcha_length) in
  {| inputs := Input input_shape; outputs := x |}.

(** The defaults of the signature: [model_depth=5, module_size=2]. *)
Definition create_model_default (captcha_length captcha_num_symbols : Z)
    (input_shape : list Z) : Model :=
  create_model captcha_length captcha_num_symbols input_shape 5 2.

(** ** [ImageSequence]: the data feeder *)

Module ImageSequence.

Import Python numpy.

(** A decoded image as stored in [X[i]]: height, width, channel. *)
Definition image : Type := list (list (list Q)).

(** The attributes [__init__] sets. *)
Record t : Type := mk {
  directory_name : string;
  batch_size : Z;
  captcha_length : Z;
  captcha_symbols : string;
  captcha_width : Z;
  captcha_height : Z;
  files : dict;
  used_files : list string;
  count : Z
}.

Definition with_files (self : t) (d : dict) : t :=
  mk (directory_name self) (batch_size self) (captcha_length self)
     (captcha_symbols self) (captcha_width self) (captcha_height self)
     d (used_files self) (count self).

Definition with_used_files (self : t) (u : list string) : t :=
  mk (directory_name self) (batch_size self) (captcha_length self)
     (captcha_symbols self) (captcha_width self) (captcha_height self)
     (files self) u (count self).

(** What one call of [__getitem__] reads from outside: the answer
    [os.listdir] gives if called in iteration [i], the generator's draw in
    iteration [i], and the outcome of lines 80-84 (read, convert, scale and
    store into a slot of the given height and width) for a file. *)
Record environment : Type := {
  listdir_at : nat -> result (list string);
  choice_at : nat -> nat;
  load_image : string -> string -> Z -> Z -> result image
}.

(** Lines 51-52 and 70-71:
    [dict(zip(map(lambda x: x.split('.')[0], file_list), file_list))]. *)
Definition pool_of (file_list : list string) : dict :=
  dict_of (combine (map (fun x => split0 "." x) file_list) file_list).

Definition __init__ (directory_name : string) (batch_size captcha_length : Z)
    (captcha_symbols : string) (captcha_width captcha_height : Z)
    (listing : result (list string)) : result t :=
  match listing with
  | Raise e => Raise e
  | Ok file_list =>
      Ok (mk directory_name batch_size captcha_length captcha_symbols
             captcha_width captcha_height (pool_of file_list) [] (len file_list))
  end.

Definition __len__ (self : t) : result Z :=
  floor_div (count self) (batch_size self).

(** Lines 66-71: the refill of an empty pool. *)
Definition refill (listing : result (list string)) (self : t) : result unit * t :=
  if (len (files self) =? 0)%Z then
    let self := with_used_files self [] in
    match listing with
    | Raise e => (Raise e, self)
    | Ok file_list => (Ok tt, with_files self (pool_of file_list))
    end
  else (Ok tt, self).

(** Lines 73-77: the random choice and the move of the chosen entry from
    the pool to the record of used files. *)
Definition pick (r : nat) (self : t) : result (string * string) * t :=
  match random_choice r (keys (files self)) with
  | Raise e => (Raise e, self)
  | Ok random_image_label =>
      match dict_get (files self) random_image_label with
      | Raise e => (Raise e, self)
      | Ok random_image_file =>
          match dict_pop (files self) random_image_label with
          | Raise e => (Raise e, self)
          | Ok (popped, d) =>
              (Ok (random_image_label, random_image_file),
               with_used_files (with_files self d) (used_files self ++ [popped]))
          end
      end
  end.

(** Lines 66-77: one draw; the key and the file name it stands for. *)
Definition draw (listing : result (list string)) (r : nat) (self : t)
  : result (string * string) * t :=
  match refill listing self with
  | (Raise e, self) => (Raise e, self)
  | (Ok _, self) => pick r self
  end.

(** Lines 89-91: the loop over [enumerate(random_image_label)]. *)
Fixpoint encode (symbols : string) (i : Z) (jchs : list (Z * ascii))
    (y : list ndarray2) : result (list ndarray2) :=
  match jchs with
  | [] => Ok y
  | (j, ch) :: rest =>
      (a <- getitem y (Z.to_nat j) ;;
       a <- set_row a i 0 ;;
       a <- set_item a i (find symbols ch) 1 ;;
       encode symbols i rest (<[Z.to_nat j := a]> y))%result
  end.

(** Line 87 and the argument of [enumerate]. *)
Definition label_of (random_image_label : string) : list ascii :=
  list_ascii_of_string (split0 "_" random_image_label).

(** Lines 66-91: the body of the loop over [range(batch_size)]. *)
Definition body (env : environment) (i : Z) (Xy : list image * list ndarray2)
    (self : t) : result (list image * list ndarray2) * t :=
  let '(X, y) := Xy in
  match draw (listdir_at env (Z.to_nat i)) (choice_at env (Z.to_nat i)) self with
  | (Raise e, self) => (Raise e, self)
  | (Ok (random_image_label, random_image_file), self) =>
      match load_image env (directory_name self) random_image_file
              (captcha_height self) (captcha_width self) with
      | Raise e => (Raise e, self)
      | Ok processed_data =>
          let X := <[Z.to_nat i := processed_data]> X in
          match encode (captcha_symbols self) i
                  (enumerate (label_of random_image_label)) y with
          | Raise e => (Raise e, self)
          | Ok y => (Ok (X, y), self)
          end
      end
  end.

Fixpoint for_range (env : environment) (indices : list Z)
    (Xy : list image * list ndarray2) (self : t)
  : result (list image * list ndarray2) * t :=
  match indices with
  | [] => (Ok Xy, self)
  | i :: indices =>
      match body env i Xy self with
      | (Raise e, self) => (Raise e, self)
      | (Ok Xy, self) => for_range env indices Xy self
      end
  end.

(** [numpy.zeros((n, h, w, 3), dtype=float32)].  What numpy raises when
    an array of that size cannot be allocated is not modelled. *)
Definition zeros4 (n h w : Z) : result (list image) :=
  if ((n <? 0) || (h <? 0) || (w <? 0))%Z then Raise ValueError
  else Ok (replicate (Z.to_nat n)
             (replicate (Z.to_nat h) (replicate (Z.to_nat w) (replicate 3 0%Q)))).

Definition __getitem__ (env : environment) (self : t) (idx : Z)
  : result (list image * list ndarray2) * t :=
  match zeros4 (batch_size self) (captcha_height self) (captcha_width self) with
  | Raise e => (Raise e, self)
  | Ok X =>
      match mapM (fun _ => zeros (batch_size self) (len (list_ascii_of_string (captcha_symbols self))))
              (range (captcha_length self)) with
      | Raise e => (Raise e, self)
      | Ok y => for_range env (range (batch_size self)) (X, y) self
      end
  end.

(** The samples a batch draws, in order: the keys and files that the
    successive calls of [draw] return from [self] on. *)
Fixpoint drawn (env : environment) (indices : list Z) (self : t)
  : list (string * string) :=
  match indices with
  | [] => []
  | i :: indices =>
      match draw (listdir_at env (Z.to_nat i)) (choice_at env (Z.to_nat i)) self with
      | (Raise _, _) => []
      | (Ok kf, self) => kf :: drawn env indices self
      end
  end.

(** The states an object goes through after [self0]: it is changed by
    draws only, whether they return or raise. *)
Inductive reaches (self0 : t) : t -> Prop :=
| reaches_refl : reaches self0 self0
| reaches_draw listing r self :
    reaches self0 self -> reaches self0 (snd (draw listing r self)).

(** The states of an object that [__init__] built. *)
Definition reachable (self : t) : Prop :=
  exists dn bs cl cs cw ch listing self0,
    __init__ dn bs cl cs cw ch listing = Ok self0 /\ reaches self0 self.

End ImageSequence.

(** ** [main]: the training driver *)

(** The namespace [parser.parse_args()] returns: no flag has a default, so
    each attribute is [None] or the parsed value. *)
Module Args.
Record t : Type := {
  width : option Z;
  height : option Z;
  length : option Z;
  batch_size : option Z;
  train_dataset : option string;
  validate_dataset : option string;
  output_model_name : option string;
  input_model : option string;
  epochs : option Z;
  symbols : option string
}.
End Args.

Inductive callback : Type :=
| EarlyStopping (patience : Z)
| ModelCheckpoint (filepath : string) (save_best_only : bool).

Inductive optimizer : Type :=
| Adam (learning_rate : Q) (amsgrad : bool).

Inductive metric : Type :=
| CategoricalAccuracy.

(** What [main] does to the outside, in program order. *)
Inductive call : Type :=
| print (message : string)
| open_symbols (path : string)
| build (m : Model)
| load_weights (path : string)
| compile (loss : string) (opt : optimizer) (metrics : list metric)
| summary
| listdir (path : string)
| write_json (path : string)
| fit (x validation_data : ImageSequence.t) (epochs : Z) (callbacks : list callback)
| save_weights (path : string).

(** The outside [main] runs against: the stripped first line of a file,
    a directory listing, and whether a backend call raises. *)
Record backend : Type := {
  readline_strip : string -> result string;
  os_listdir : string -> result (list string);
  raises : call -> option exn
}.

(** A computation of [main]: the calls made so far and how it ended. *)
Definition io (A : Type) : Type := (list call * result A)%type.

Definition io_bind {A B : Type} (m : io A) (k : A -> io B) : io B :=
  match m with
  | (tr, Ok a) => let '(tr', r) := k a in (tr ++ tr', r)
  | (tr, Raise e) => (tr, Raise e)
  end.

Declare Scope io_scope.
Delimit Scope io_scope with io.
Notation "x <- m ;; k" := (io_bind m (fun x => k))
  (at level 100, m at next level, right associativity) : io_scope.
Notation "m ;;; k" := (io_bind m (fun _ => k))
  (at level 100, right associativity) : io_scope.

Definition say (message : string) : io unit := ([print message], Ok tt).

Definition exit {A : Type} (code : Z) : io A := ([], Raise (SystemExit code)).

Definition perform (be : backend) (c : call) : io unit :=
  ([c], match raises be c with
        | Some e => Raise e
        | None => Ok tt
        end).

Definition observe {A : Type} (c : call) (r : result A) : io A := ([c], r).

(** [try: body except KeyboardInterrupt: handler] *)
Definition try_except_KeyboardInterrupt (body handler : io unit) : io unit :=
  match body with
  | (tr, Raise KeyboardInterrupt) => let '(tr', r) := handler in (tr ++ tr', r)
  | other => other
  end.

(** Lines 154-199: what [main] does once every required flag is there. *)
Definition train (be : backend) (width height length batch_size epochs : Z)
    (train_dataset validate_dataset output_model_name : string)
    (input_model : option string) (symbols : string) : io unit :=
  (captcha_symbols <- observe (open_symbols symbols) (readline_strip be symbols) ;;
   let model :=
     create_model_default length
       (Python.len (list_ascii_of_string captcha_symbols)) [height; width; 3%Z] in
   perform be (build model) ;;;
   match input_model with
   | Some path => perform be (load_weights path)
   | None => ([], Ok tt)
   end ;;;
   perform be (compile "categorical_crossentropy" (Adam (1 # 1000) true)
                 (map (fun _ => CategoricalAccuracy) (Python.range length))) ;;;
   perform be summary ;;;
   training_data <-
     observe (listdir train_dataset)
       (ImageSequence.__init__ train_dataset batch_size length captcha_symbols
          width height (os_listdir be train_dataset)) ;;
   validation_data <-
     observe (listdir validate_dataset)
       (ImageSequence.__init__ validate_dataset batch_size length captcha_symbols
          width height (os_listdir be validate_dataset)) ;;
   let callbacks :=
     [EarlyStopping 3; ModelCheckpoint (output_model_name ++ ".keras")%string false] in
   perform be (write_json (output_model_name ++ ".json")%string) ;;;
   try_except_KeyboardInterrupt
     (perform be (fit training_data validation_data epochs callbacks))
     (say ("KeyboardInterrupt caught, saving current weights as "
             ++ output_model_name ++ "_resume.h5")%string ;;;
      perform be (save_weights (output_model_name ++ "_resume.h5")%string)))%io.

(** Lines 118-152, then [train]. *)
Definition main (be : backend) (args : Args.t) : io unit :=
  match Args.width args with
  | None => (say "Please specify the captcha image width" ;;; exit 1)%io
  | Some width =>
  match Args.height args with
  | None => (say "Please specify the captcha image height" ;;; exit 1)%io
  | Some height =>
  match Args.length args with
  | None => (say "Please specify the captcha length" ;;; exit 1)%io
  | Some length =>
  match Args.batch_size args with
  | None => (say "Please specify the training batch size" ;;; exit 1)%io
  | Some batch_size =>
  match Args.epochs args with
  | None => (say "Please specify the number of training epochs to run" ;;; exit 1)%io
  | Some epochs =>
  match Args.train_dataset args with
  | None => (say "Please specify the path to the training data set" ;;; exit 1)%io
  | Some train_dataset =>
  match Args.validate_dataset args with
  | None => (say "Please specify the path to the validation data set" ;;; exit 1)%io
  | Some validate_dataset =>
  match Args.output_model_name args with
  | None => (say "Please specify a name for the trained model" ;;; exit 1)%io
  | Some output_model_name =>
  match Args.symbols args with
  | None => (say "Please specify the captcha symbols file" ;;; exit 1)%io
  | Some symbols =>
      train be width height length batch_size epochs train_dataset
        validate_dataset output_model_name (Args.input_model args) symbols
  end end end end end end end end end.

(** ** The required flags, their order and their messages *)

Inductive flag : Type :=
| flag_width | flag_height | flag_length | flag_batch_size | flag_epochs
| flag_train_dataset | flag_validate_dataset | flag_output_model_name
| flag_symbols.

(** The order of the checks of lines 118-152. *)
Definition check_order : list flag :=
  [flag_width; flag_height; flag_length; flag_batch_size; flag_epochs;
   flag_train_dataset; flag_validate_dataset; flag_output_model_name;
   flag_symbols].

Definition is_None {A : Type} (o : option A) : bool :=
  match o with
  | None => true
  | Some _ => false
  end.

Definition missing (args : Args.t) (f : flag) : bool :=
  match f with
  | flag_width => is_None (Args.width args)
  | flag_height => is_None (Args.height args)
  | flag_length => is_None (Args.length args)
  | flag_batch_size => is_None (Args.batch_size args)
  | flag_epochs => is_None (Args.epochs args)
  | flag_train_dataset => is_None (Args.train_dataset args)
  | flag_validate_dataset => is_None (Args.validate_dataset args)
  | flag_output_model_name => is_None (Args.output_model_name args)
  | flag_symbols => is_None (Args.symbols args)
  end.

(** The message each check prints. *)
Definition message (f : flag) : string :=
  match f with
  | flag_width => "Please specify the captcha image width"
  | flag_height => "Please specify the captcha image height"
  | flag_length => "Please specify the captcha length"
  | flag_batch_size => "Please specify the training batch size"
  | flag_epochs => "Please specify the number of training epochs to run"
  | flag_train_dataset => "Please specify the path to the training data set"
  | flag_validate_dataset => "Please specify the path to the validation data set"
  | flag_output_model_name => "Please specify a name for the trained model"
  | flag_symbols => "Please specify the captcha symbols file"
  end.

Definition first_missing (args : Args.t) : option flag :=
  List.find (missing args) check_order.

Definition is_build (c : call) : bool :=
  match c with
  | build _ => true
  | _ => false
  end.

Definition is_fit (c : call) : bool :=
  match c with
  | fit _ _ _ _ => true
  | _ => false
  end.

Definition is_save_weights (c : call) : bool :=
  match c with
  | save_weights _ => true
  | _ => false
  end.

(** ** Notions the statements about the feeder use *)

Module Feeder.

Import Python numpy ImageSequence.

(** Every key of a pool is the part of its file name before the first dot. *)
Definition keyed (d : dict) : Prop :=
  Forall (fun kv => fst kv = split0 "." (snd kv)) d.

(** What holds of the pool and of the record of used files at all times. *)
Definition pool_inv (self : t) : Prop :=
  NoDup (keys (files self))
  /\ keyed (files self)
  /\ NoDup (used_files self)
  /\ (forall f, f ∈ used_files self -> f ∉ values (files self)).

(** Draws in a row, each with its own listing and random number. *)
Definition run (inputs : list (result (list string) * nat)) (self : t) : t :=
  fold_left (fun self lr => snd (draw (fst lr) (snd lr) self)) inputs self.

(** The files drawn from one filling of the pool: a first draw, which
    refills an empty pool, then draws from a pool that is not empty. *)
Inductive generation : t -> list string -> t -> Prop :=
| generation_first listing r self key file self' :
    draw listing r self = (Ok (key, file), self') ->
    generation self [file] self'
| generation_next listing r self files_drawn self' key file self'' :
    generation self files_drawn self' ->
    files self' <> [] ->
    draw listing r self' = (Ok (key, file), self'') ->
    generation self (files_drawn ++ [file]) self''.

(** Row [k] of the array for label position [j]. *)
Definition cell (y : list ndarray2) (j k : nat) : option (list Z) :=
  match y !! j with
  | Some a => a !! k
  | None => None
  end.

(** [y] holds arrays of [R] rows of [C] entries. *)
Definition shaped (R C : nat) (y : list ndarray2) : Prop :=
  Forall (fun a => length a = R /\ Forall (fun row => length row = C) a) y.

(** A row of [C] zeros with a one at position [c]. *)
Definition one_hot (C c : nat) : list Z := <[c := 1%Z]> (replicate C 0%Z).

(** The characters of the alphabet. *)
Definition alphabet (self : t) : list ascii :=
  list_ascii_of_string (captcha_symbols self).

(** The samples of the batch [__getitem__] fills from [self]. *)
Definition batch (env : environment) (self : t) : list (string * string) :=
  drawn env (range (batch_size self)) self.

(** The reading of the silent failure that leaves a row of zeros: in every
    batch produced, the row of a character outside the alphabet is zero. *)
Definition unmapped_row_is_zero : Prop :=
  forall env self idx X y k key file j ch row,
    fst (__getitem__ env self idx) = Ok (X, y) ->
    batch env self !! k = Some (key, file) ->
    label_of key !! j = Some ch ->
    ch ∉ alphabet self ->
    cell y j k = Some row ->
    Forall (fun v => v = 0%Z) row.

End Feeder.

(** The name of an output head. *)
Definition head_name (x : tensor) : option string :=
  match x with
  | Call (Dense _ _ name) _ => Some name
  | _ => None
  end.

(** ** Concrete runs, used to exercise the statements *)

Module Sample.

Import ImageSequence.

Definition pixel : image := [[[(1 # 2)%Q; (1 # 2)%Q; (1 # 2)%Q]]].

(** A directory of two images whose labels use the alphabet ["ab"]. *)
Definition two_files : list string := ["ab_0.png"; "ba_1.png"].

Definition env : environment :=
  {| listdir_at := fun _ => Ok two_files;
     choice_at := fun _ => 0%nat;
     load_image := fun _ _ _ _ => Ok pixel |}.

Definition feeder : t :=
  mk "data" 2 2 "ab" 1 1 (pool_of two_files) [] 2.

(** The same directory read with an alphabet that lacks ["b"]. *)
Definition feeder_short_alphabet : t :=
  mk "data" 2 2 "ac" 1 1 (pool_of two_files) [] 2.

(** The same directory read as captchas of one character. *)
Definition feeder_short_length : t :=
  mk "data" 2 1 "ab" 1 1 (pool_of two_files) [] 2.


(** Two directory entries with the same text before the first dot. *)
Definition shared_prefix : list string := ["ab_0.png"; "ab_0.jpg"].

Definition five_files : list string :=
  ["ab_0.png"; "ba_1.png"; "aa_2.png"; "bb_3.png"; "ab_4.png"].

Definition args : Args.t :=
  {| Args.width := Some 1%Z;
     Args.height := Some 1%Z;
     Args.length := Some 2%Z;
     Args.batch_size := Some 2%Z;
     Args.train_dataset := Some "train";
     Args.validate_dataset := Some "validate";
     Args.output_model_name := Some "model";
     Args.input_model := None;
     Args.epochs := Some 1%Z;
     Args.symbols := Some "symbols.txt" |}.

Definition args_without_symbols : Args.t :=
  {| Args.width := Some 1%Z;
     Args.height := Some 1%Z;
     Args.length := Some 2%Z;
     Args.batch_size := Some 2%Z;
     Args.train_dataset := Some "train";
     Args.validate_dataset := Some "validate";
     Args.output_model_name := Some "model";
     Args.input_model := None;
     Args.epochs := Some 1%Z;
     Args.symbols := None |}.

(** A backend in which the training loop is interrupted. *)
Definition interrupted : backend :=
  {| readline_strip := fun _ => Ok "ab";
     os_listdir := fun _ => Ok two_files;
     raises := fun c => if is_fit c then Some KeyboardInterrupt else None |}.

Definition dataset (directory : string) : t :=
  mk directory 2 2 "ab" 1 1 (pool_of two_files) [] 2.

Definition callbacks : list callback :=
  [EarlyStopping 3; ModelCheckpoint "model.keras" false].

End Sample.

(** ** Notions for further statements *)

Module Batch.

Import Python numpy ImageSequence.

(** What the draws of one call of [__getitem__] read: the listing and the
    random number of each iteration of the loop. *)
Definition inputs_of (env : environment) (indices : list Z)
  : list (result (list string) * nat) :=
  map (fun i : Z => (listdir_at env (Z.to_nat i), choice_at env (Z.to_nat i)))
      indices.

Definition inputs (env : environment) (self : t) : list (result (list string) * nat) :=
  inputs_of env (range (batch_size self)).

(** The label of a pool key has at most as many characters as there are
    label arrays. *)
Definition fits (self : t) (key : string) : Prop :=
  (length (label_of key) <= Z.to_nat (captcha_length self))%nat.

End Batch.

Module Trunk.

Import keras.

(** The layers from the input to a tensor, in the order data flows. *)
Definition forward_layers (x : tensor) : list layer := rev (layers_of x).

(** The layers of module [i] with [m] convolutions. *)
Definition module_layers (i : Z) (m : nat) : list layer :=
  concat (replicate m [Conv2D (32 * 2 ^ Z.min i 3) 3 "same" "he_uniform";
                       BatchNormalization; Activation "relu"])
  ++ [MaxPooling2D 2].

Definition filters_of (l : layer) : option Z :=
  match l with
  | Conv2D filters _ _ _ => Some filters
  | _ => None
  end.

Definition is_MaxPooling2D (l : layer) : bool :=
  match l with
  | MaxPooling2D _ => true
  | _ => false
  end.

End Trunk.

(** Further concrete runs. *)

Module Sample2.

Import ImageSequence.

(** An empty directory, and a feeder built from it. *)
Definition empty_env : environment :=
  {| listdir_at := fun _ => Ok [];
     choice_at := fun _ => 0%nat;
     load_image := fun _ _ _ _ => Ok Sample.pixel |}.

Definition empty_feeder : t := mk "data" 2 2 "ab" 1 1 [] [] 0.

(** The directory of [Sample.two_files] read as captchas of three
    characters. *)
Definition feeder_long_length : t :=
  mk "data" 2 3 "ab" 1 1 (pool_of Sample.two_files) [] 2.

(** The label arrays of the batch [Sample.env] gives [Sample.feeder]. *)
Definition labels : list (list (list Z)) :=
  [[[1; 0]; [0; 1]]; [[0; 1]; [1; 0]]]%Z.

End Sample2.

(** ** The interrupt handler, as first read *)

Module Driver.

(** The reading that [main] returns normally whenever the training loop
    is interrupted. *)
Definition interrupt_returns_normally : Prop :=
  forall be args x v ep cbs,
    In (fit x v ep cbs) (fst (main be args)) ->
    raises be (fit x v ep cbs) = Some KeyboardInterrupt ->
    snd (main be args) = Ok tt.

End Driver.

(** Runs of the driver on images of 128 by 64 pixels. *)

Module Sample3.

Definition args : Args.t :=
  {| Args.width := Some 128%Z;
     Args.height := Some 64%Z;
     Args.length := Some 2%Z;
     Args.batch_size := Some 2%Z;
     Args.train_dataset := Some "train";
     Args.validate_dataset := Some "validate";
     Args.output_model_name := Some "model";
     Args.input_model := None;
     Args.epochs := Some 1%Z;
     Args.symbols := Some "symbols.txt" |}.

Definition dataset (directory : string) : ImageSequence.t :=
  ImageSequence.mk directory 2 2 "ab" 128 64
    (ImageSequence.pool_of Sample.two_files) [] 2.

Definition callbacks : list callback :=
  [EarlyStopping 3; ModelCheckpoint "model.keras" false].

(** The training loop is interrupted and [save_weights] writes the file,
    as Keras 2 does for a name that ends in [.h5]. *)
Definition interrupted_save_returns : backend :=
  {| readline_strip := fun _ => Ok "ab";
     os_listdir := fun _ => Ok Sample.two_files;
     raises := fun c => if is_fit c then Some KeyboardInterrupt else None |}.

(** The training loop is interrupted and [save_weights] raises
    [ValueError], as Keras 3 does for a name that does not end in
    [.weights.h5]. *)
Definition interrupted_save_raises : backend :=
  {| readline_strip := fun _ => Ok "ab";
     os_listdir := fun _ => Ok Sample.two_files;
     raises := fun c =>
       if is_fit c then Some KeyboardInterrupt
       else if is_save_weights c then Some ValueError
       else None |}.

End Sample3.

(** * Proofs *)

Import Python numpy ImageSequence Feeder.

(** ** Arithmetic and ranges *)

Lemma Qfloor_div_pos (a b : Z) : (0 < b)%Z -> Qfloor (inject_Z a / inject_Z b) = (a / b)%Z.
Proof.
  intros Hb. destruct b as [|p|p]; try lia.
  unfold Qdiv, Qinv, inject_Z, Qmult, Qfloor. simpl.
  rewrite Z.mul_1_r. reflexivity.
Qed.

Lemma floor_div_pos (a b : Z) : (0 < b)%Z -> floor_div a b = Ok (a / b)%Z.
Proof.
  intros Hb. unfold floor_div.
  destruct (Z.eqb_spec b 0) as [->|_]; [lia|].
  by rewrite Qfloor_div_pos.
Qed.

Lemma format_d_inj (a b : Z) : format_d a = format_d b -> a = b.
Proof.
  unfold format_d. intros H.
  assert (Some (Z.to_int a) = Some (Z.to_int b)) as Hi.
  { rewrite <- (NilEmpty.isi (Z.to_int a)), <- (NilEmpty.isi (Z.to_int b)).
    by rewrite H. }
  injection Hi as Hi.
  rewrite <- (DecimalZ.of_to a), <- (DecimalZ.of_to b). by rewrite Hi.
Qed.

Lemma range_length (n : Z) : length (range n) = Z.to_nat n.
Proof. unfold range. by rewrite length_map, length_seq. Qed.

Lemma range_lookup (n : Z) (i : nat) :
  (i < Z.to_nat n)%nat -> range n !! i = Some (Z.of_nat i).
Proof.
  intros Hi. unfold range. change (map Z.of_nat) with (fmap (M:=list) Z.of_nat).
  rewrite list_lookup_fmap, lookup_seq_lt by done. reflexivity.
Qed.

Lemma range_NoDup (n : Z) : NoDup (range n).
Proof.
  unfold range. apply (NoDup_fmap_2 Z.of_nat), NoDup_seq.
Qed.

Lemma conv_units_no_Dense (i : Z) (js : list Z) (x : tensor) :
  existsb is_Dense (layers_of (fold_left (fun x _ => conv_unit i x) js x))
  = existsb is_Dense (layers_of x).
Proof.
  revert x. induction js as [|j js IH]; intros x; simpl; [reflexivity|].
  by rewrite IH.
Qed.

Lemma conv_modules_no_Dense (ims : list (Z * Z)) (x : tensor) :
  existsb is_Dense (layers_of (fold_left conv_module ims x))
  = existsb is_Dense (layers_of x).
Proof.
  revert x. induction ims as [|[i ml] ims IH]; intros x; simpl; [reflexivity|].
  rewrite IH. simpl. apply conv_units_no_Dense.
Qed.



(** ** Dictionaries *)


Lemma eqb_refl_true (k : string) : String.eqb k k = true.
Proof. apply String.eqb_refl. Qed.

Lemma dict_set_keys (d : dict) (k v : string) :
  keys (dict_set d k v) = if decide (k ∈ keys d) then keys d else keys d ++ [k].
Proof.
  induction d as [|[k' v'] d IH].
  - rewrite decide_False; [done|]. apply not_elem_of_nil.
  - cbn [dict_set]. destruct (String.eqb_spec k' k) as [->|Hne].
    + rewrite decide_True; [done|]. apply elem_of_cons; by left.
    + change (keys ((k', v') :: dict_set d k v)) with (k' :: keys (dict_set d k v)).
      change (keys ((k', v') :: d)) with (k' :: keys d).
      rewrite IH. destruct (decide (k ∈ keys d)) as [Hin|Hin].
      * rewrite decide_True; [done|]. apply elem_of_cons; by right.
      * rewrite decide_False; [done|]. intros [?|?]%elem_of_cons; congruence.
Qed.

Lemma dict_set_length (d : dict) (k v : string) :
  length (dict_set d k v) = if decide (k ∈ keys d) then length d else S (length d).
Proof.
  rewrite <- (length_map fst (dict_set d k v)).
  change (map fst (dict_set d k v)) with (keys (dict_set d k v)).
  rewrite dict_set_keys. destruct (decide _).
  - unfold keys. by rewrite length_map.
  - unfold keys. rewrite length_app, length_map. simpl. lia.
Qed.

Lemma dict_set_NoDup (d : dict) (k v : string) :
  NoDup (keys d) -> NoDup (keys (dict_set d k v)).
Proof.
  intros Hnd. rewrite dict_set_keys. destruct (decide _) as [Hin|Hin]; [done|].
  apply NoDup_app. split; [done|]. split.
  - intros x Hx ->%list_elem_of_singleton. done.
  - apply NoDup_singleton.
Qed.

Lemma dict_set_Forall (P : string * string -> Prop) (d : dict) (k v : string) :
  Forall P d -> P (k, v) -> Forall P (dict_set d k v).
Proof.
  intros Hd Hkv. induction Hd as [|[k' v'] d Hx Hd IH]; simpl.
  - by constructor.
  - destruct (String.eqb_spec k' k) as [->|Hne]; by constructor.
Qed.

Lemma dict_get_elem_of (d : dict) (k v : string) :
  dict_get d k = Ok v -> (k, v) ∈ d.
Proof.
  induction d as [|[k' v'] d IH]; simpl; [done|].
  destruct (String.eqb_spec k' k) as [->|Hne].
  - intros [= ->]. apply elem_of_cons; by left.
  - intros H. apply elem_of_cons; right; by apply IH.
Qed.

Lemma dict_get_key (d : dict) (k : string) :
  k ∈ keys d -> exists v, dict_get d k = Ok v.
Proof.
  induction d as [|[k' v'] d IH]; simpl.
  - intros H. by apply elem_of_nil in H.
  - intros H. destruct (String.eqb_spec k' k) as [->|Hne]; [by eexists|].
    apply elem_of_cons in H as [?|H]; [congruence|]. by apply IH.
Qed.

Lemma dict_del_sub (d : dict) (k : string) (kv : string * string) :
  kv ∈ dict_del d k -> kv ∈ d.
Proof.
  induction d as [|[k' v'] d IH]; simpl; [done|].
  destruct (String.eqb k' k).
  - intros H. apply elem_of_cons; by right.
  - intros [->|H]%elem_of_cons; apply elem_of_cons; [by left|right; by apply IH].
Qed.

Lemma dict_del_keys_sub (d : dict) (k x : string) :
  x ∈ keys (dict_del d k) -> x ∈ keys d.
Proof.
  unfold keys. intros ([k' v'] & -> & H)%(list_elem_of_fmap_1 fst).
  apply list_elem_of_fmap. exists (k', v'). split; [done|]. by apply dict_del_sub in H.
Qed.

Lemma dict_del_NoDup (d : dict) (k : string) :
  NoDup (keys d) -> NoDup (keys (dict_del d k)).
Proof.
  induction d as [|[k' v'] d IH]; simpl; [done|].
  intros [Hk Hnd]%NoDup_cons. destruct (String.eqb k' k); [done|].
  simpl. apply NoDup_cons. split; [|by apply IH].
  intros H. apply Hk. by apply dict_del_keys_sub in H.
Qed.

Lemma dict_del_not_key (d : dict) (k : string) :
  NoDup (keys d) -> k ∉ keys (dict_del d k).
Proof.
  induction d as [|[k' v'] d IH]; simpl.
  - intros _. apply not_elem_of_nil.
  - intros [Hk Hnd]%NoDup_cons. destruct (String.eqb_spec k' k) as [->|Hne]; [done|].
    simpl. intros [?|H]%elem_of_cons; [congruence|]. by apply IH in H.
Qed.

Lemma dict_del_length (d : dict) (k : string) :
  k ∈ keys d -> S (length (dict_del d k)) = length d.
Proof.
  induction d as [|[k' v'] d IH]; simpl.
  - intros H. by apply elem_of_nil in H.
  - intros H. destruct (String.eqb_spec k' k) as [->|Hne]; [done|].
    apply elem_of_cons in H as [?|H]; [congruence|]. simpl. by rewrite IH.
Qed.

Lemma dict_del_Forall (P : string * string -> Prop) (d : dict) (k : string) :
  Forall P d -> Forall P (dict_del d k).
Proof.
  intros Hd. apply Forall_forall. intros kv H%dict_del_sub.
  by eapply Forall_forall in Hd.
Qed.

Lemma random_choice_elem_of {A : Type} (r : nat) (l : list A) :
  l <> [] -> exists a, random_choice r l = Ok a /\ a ∈ l.
Proof.
  intros Hl. unfold random_choice. destruct l as [|a0 l0] eqn:E; [done|].
  rewrite <- E. unfold getitem.
  assert (r mod length l < length l)%nat as Hlt.
  { apply Nat.mod_upper_bound. rewrite E. simpl. lia. }
  destruct (lookup_lt_is_Some_2 l _ Hlt) as [a Ha]. rewrite Ha.
  exists a. split; [done|]. by eapply list_elem_of_lookup_2.
Qed.

Lemma random_choice_Ok {A : Type} (r : nat) (l : list A) (a : A) :
  random_choice r l = Ok a -> a ∈ l.
Proof.
  destruct l as [|a0 l0] eqn:E; [done|]. rewrite <- E.
  assert (l <> []) as Hl by (rewrite E; done).
  destruct (random_choice_elem_of r l Hl) as (a' & -> & Ha). by intros [= <-].
Qed.


(** ** The pool of the feeder *)


Lemma fold_dict_set_NoDup (kvs : list (string * string)) (d : dict) :
  NoDup (keys d) ->
  NoDup (keys (fold_left (fun d kv => dict_set d (fst kv) (snd kv)) kvs d)).
Proof.
  revert d. induction kvs as [|kv kvs IH]; intros d Hd; simpl; [done|].
  by apply IH, dict_set_NoDup.
Qed.

Lemma fold_dict_set_Forall (P : string * string -> Prop)
    (kvs : list (string * string)) (d : dict) :
  Forall P kvs -> Forall P d ->
  Forall P (fold_left (fun d kv => dict_set d (fst kv) (snd kv)) kvs d).
Proof.
  revert d. induction kvs as [|[k v] kvs IH]; intros d Hkvs Hd; simpl; [done|].
  apply Forall_cons in Hkvs as [Hkv Hkvs]. by apply IH, dict_set_Forall.
Qed.

Lemma fold_dict_set_length (kvs : list (string * string)) (d : dict) :
  (length (fold_left (fun d kv => dict_set d (fst kv) (snd kv)) kvs d)
   <= length d + length kvs)%nat.
Proof.
  revert d. induction kvs as [|kv kvs IH]; intros d; simpl; [lia|].
  etransitivity; [apply IH|]. rewrite dict_set_length. destruct (decide _); lia.
Qed.

Lemma fold_dict_set_key (kvs : list (string * string)) (d : dict) (k : string) :
  k ∈ keys d ->
  k ∈ keys (fold_left (fun d kv => dict_set d (fst kv) (snd kv)) kvs d).
Proof.
  revert d. induction kvs as [|kv kvs IH]; intros d Hk; simpl; [done|].
  apply IH. rewrite dict_set_keys. destruct (decide _); [done|].
  apply elem_of_app; by left.
Qed.

Lemma dict_set_key (d : dict) (k v : string) : k ∈ keys (dict_set d k v).
Proof.
  rewrite dict_set_keys. destruct (decide _); [done|].
  apply elem_of_app; right. by apply list_elem_of_singleton.
Qed.

Lemma fold_dict_set_shared (a b c : list (string * string)) (k v1 v2 : string)
    (d : dict) :
  (length (fold_left (fun d kv => dict_set d (fst kv) (snd kv))
             (a ++ (k, v1) :: b ++ (k, v2) :: c) d)
   < length d + length (a ++ (k, v1) :: b ++ (k, v2) :: c))%nat.
Proof.
  rewrite fold_left_app. simpl. rewrite fold_left_app. simpl.
  set (d1 := fold_left _ a d).
  set (d2 := fold_left _ b (dict_set d1 k v1)).
  pose proof (fold_dict_set_length a d) as H1. fold d1 in H1.
  pose proof (fold_dict_set_length b (dict_set d1 k v1)) as H2. fold d2 in H2.
  pose proof (fold_dict_set_length c (dict_set d2 k v2)) as H3.
  assert (k ∈ keys d2) as Hk by apply fold_dict_set_key, dict_set_key.
  rewrite dict_set_length in H3. rewrite decide_True in H3 by done.
  assert (length (dict_set d1 k v1) <= S (length d1))%nat as H4.
  { rewrite dict_set_length. destruct (decide _); lia. }
  rewrite !length_app. simpl. rewrite length_app. simpl. lia.
Qed.

Lemma zip_prefix (file_list : list string) :
  combine (map (fun x => split0 "." x) file_list) file_list
  = map (fun x => (split0 "." x, x)) file_list.
Proof. induction file_list as [|x l IH]; simpl; [done|]. by rewrite IH. Qed.

Lemma pool_of_NoDup (file_list : list string) : NoDup (keys (pool_of file_list)).
Proof. apply fold_dict_set_NoDup. constructor. Qed.

Lemma pool_of_keyed (file_list : list string) : keyed (pool_of file_list).
Proof.
  apply fold_dict_set_Forall; [|constructor].
  rewrite zip_prefix. apply Forall_forall. intros kv.
  intros (x & -> & _)%(list_elem_of_fmap_1 (fun x => (split0 "." x, x))). done.
Qed.

Lemma pool_of_length (file_list : list string) :
  (length (pool_of file_list) <= length file_list)%nat.
Proof.
  unfold pool_of, dict_of. etransitivity; [apply fold_dict_set_length|].
  rewrite zip_prefix, length_map. simpl. lia.
Qed.

Lemma pool_of_shared (l1 l2 l3 : list string) (f1 f2 : string) :
  split0 "." f1 = split0 "." f2 ->
  (length (pool_of (l1 ++ f1 :: l2 ++ f2 :: l3))
   < length (l1 ++ f1 :: l2 ++ f2 :: l3))%nat.
Proof.
  intros Hk. unfold pool_of, dict_of. rewrite zip_prefix.
  rewrite map_app. simpl. rewrite map_app. simpl. rewrite Hk.
  pose proof (fold_dict_set_shared
    (map (fun x => (split0 "." x, x)) l1) (map (fun x => (split0 "." x, x)) l2)
    (map (fun x => (split0 "." x, x)) l3) (split0 "." f2) f1 f2 []) as H.
  rewrite !length_app in *. simpl in *. rewrite !length_app in *. simpl in *.
  rewrite !length_map in H. exact H.
Qed.

Lemma keyed_keys (d : dict) : keyed d -> keys d = map (fun x => split0 "." x) (values d).
Proof.
  induction 1 as [|[k v] d Hkv Hd IH]; simpl; [done|].
  simpl in Hkv. by rewrite Hkv, <- IH.
Qed.

Lemma keyed_values_NoDup (d : dict) : keyed d -> NoDup (keys d) -> NoDup (values d).
Proof.
  intros Hd Hnd. rewrite (keyed_keys d Hd) in Hnd.
  by apply (NoDup_fmap_1 (fun x => split0 "." x)) in Hnd.
Qed.

Lemma keyed_elem_of (d : dict) (k v : string) : keyed d -> (k, v) ∈ d -> k = split0 "." v.
Proof. intros Hd Hin. by eapply Forall_forall in Hd; [|exact Hin]. Qed.

Lemma values_elem_of (d : dict) (v : string) :
  v ∈ values d -> exists k, (k, v) ∈ d.
Proof.
  unfold values. intros ([k v'] & -> & H)%(list_elem_of_fmap_1 snd). by exists k.
Qed.

Lemma keys_elem_of (d : dict) (k v : string) : (k, v) ∈ d -> k ∈ keys d.
Proof. intros H. unfold keys. apply (list_elem_of_fmap_2 fst) in H. exact H. Qed.

Lemma len_zero {A : Type} (l : list A) : (len l =? 0)%Z = true <-> l = [].
Proof.
  unfold len. destruct l; simpl; [done|]. split; intros H; discriminate.
Qed.

(** One pick from a pool that is not empty. *)
Lemma pick_nonempty (r : nat) (self : t) :
  files self <> [] ->
  exists key file,
    (key, file) ∈ files self
    /\ pick r self =
         (Ok (key, file),
          with_used_files (with_files self (dict_del (files self) key))
            (used_files self ++ [file])).
Proof.
  intros Hne. unfold pick.
  destruct (random_choice_elem_of r (keys (files self))) as (key & -> & Hkey).
  { unfold keys. destruct (files self); [done|]. discriminate. }
  destruct (dict_get_key _ _ Hkey) as [file Hfile].
  unfold dict_pop. rewrite Hfile. exists key, file. split; [|done].
  by apply dict_get_elem_of.
Qed.

Lemma pick_empty (r : nat) (self : t) :
  files self = [] -> pick r self = (Raise IndexError, self).
Proof. intros H. unfold pick. by rewrite H. Qed.

Lemma refill_nonempty listing (self : t) :
  files self <> [] -> refill listing self = (Ok tt, self).
Proof.
  intros Hne. unfold refill.
  destruct (len (files self) =? 0)%Z eqn:E; [|done]. by apply len_zero in E.
Qed.

Lemma refill_empty listing (self : t) :
  files self = [] ->
  refill listing self =
    match listing with
    | Raise e => (Raise e, with_used_files self [])
    | Ok file_list => (Ok tt, with_files (with_used_files self []) (pool_of file_list))
    end.
Proof.
  intros He. unfold refill.
  destruct (len (files self) =? 0)%Z eqn:E; [done|].
  apply len_zero in He. congruence.
Qed.



(** A draw that returns took its sample from the pool as [refill] left it. *)
Lemma draw_Ok listing (r : nat) (self self' : t) (key file : string) :
  draw listing r self = (Ok (key, file), self') ->
  exists self1,
    refill listing self = (Ok tt, self1)
    /\ files self1 <> []
    /\ (key, file) ∈ files self1
    /\ self' = with_used_files (with_files self1 (dict_del (files self1) key))
                 (used_files self1 ++ [file]).
Proof.
  unfold draw. destruct (refill listing self) as [[[]|e] self1] eqn:E; [|done].
  intros H. exists self1. split; [done|].
  destruct (files self1) as [|kv d] eqn:Ef.
  - by rewrite pick_empty in H.
  - destruct (pick_nonempty r self1) as (key' & file' & Hin & Hp); [by rewrite Ef|].
    rewrite Hp in H. injection H as -> -> <-. rewrite <- Ef.
    split; [by rewrite Ef|]. by split.
Qed.

(** A draw from a pool that is not empty returns. *)
Lemma draw_nonempty listing (r : nat) (self : t) :
  files self <> [] ->
  exists key file,
    (key, file) ∈ files self
    /\ draw listing r self =
         (Ok (key, file),
          with_used_files (with_files self (dict_del (files self) key))
            (used_files self ++ [file])).
Proof.
  intros Hne. unfold draw. rewrite refill_nonempty by done.
  by apply pick_nonempty.
Qed.

Lemma refill_attributes listing (self : t) :
  let self' := snd (refill listing self) in
  directory_name self' = directory_name self
  /\ batch_size self' = batch_size self
  /\ captcha_length self' = captcha_length self
  /\ captcha_symbols self' = captcha_symbols self
  /\ captcha_width self' = captcha_width self
  /\ captcha_height self' = captcha_height self
  /\ count self' = count self.
Proof.
  unfold refill. destruct (_ =? _)%Z; [destruct listing|]; simpl; auto 10.
Qed.

Lemma pick_attributes (r : nat) (self : t) :
  let self' := snd (pick r self) in
  directory_name self' = directory_name self
  /\ batch_size self' = batch_size self
  /\ captcha_length self' = captcha_length self
  /\ captcha_symbols self' = captcha_symbols self
  /\ captcha_width self' = captcha_width self
  /\ captcha_height self' = captcha_height self
  /\ count self' = count self.
Proof.
  destruct (files self) as [|kv d] eqn:Ef.
  - rewrite pick_empty by done. simpl. auto 10.
  - destruct (pick_nonempty r self) as (key & file & _ & ->); [by rewrite Ef|].
    simpl. auto 10.
Qed.

(** A draw changes the pool and the record of used files, nothing else. *)
Lemma draw_attributes listing (r : nat) (self : t) :
  let self' := snd (draw listing r self) in
  directory_name self' = directory_name self
  /\ batch_size self' = batch_size self
  /\ captcha_length self' = captcha_length self
  /\ captcha_symbols self' = captcha_symbols self
  /\ captcha_width self' = captcha_width self
  /\ captcha_height self' = captcha_height self
  /\ count self' = count self.
Proof.
  pose proof (refill_attributes listing self) as Hr. unfold draw.
  destruct (refill listing self) as [[[]|e] self1]; simpl in *; [|exact Hr].
  pose proof (pick_attributes r self1) as Hp. simpl in Hp.
  destruct Hr as (<- & <- & <- & <- & <- & <- & <-). exact Hp.
Qed.

Lemma refill_inv listing (self : t) :
  pool_inv self -> pool_inv (snd (refill listing self)).
Proof.
  intros (Hk & Hkd & Hu & Hd). unfold refill.
  destruct (len (files self) =? 0)%Z; [|done].
  destruct listing as [file_list|e]; simpl.
  - split; [apply pool_of_NoDup|]. split; [apply pool_of_keyed|].
    split; [constructor|]. intros f Hf. by apply elem_of_nil in Hf.
  - split; [done|]. split; [done|]. split; [constructor|].
    intros f Hf. by apply elem_of_nil in Hf.
Qed.

Lemma dict_del_not_value (d : dict) (key file : string) :
  NoDup (keys d) -> keyed d -> (key, file) ∈ d -> file ∉ values (dict_del d key).
Proof.
  intros Hnd Hkd Hin [k' Hk']%values_elem_of.
  pose proof (dict_del_sub _ _ _ Hk') as Hd.
  apply (keyed_elem_of d) in Hd; [|done].
  apply (keyed_elem_of d) in Hin; [|done]. subst k' key.
  apply keys_elem_of in Hk'. by apply dict_del_not_key in Hk'.
Qed.

Lemma pick_inv (r : nat) (self : t) : pool_inv self -> pool_inv (snd (pick r self)).
Proof.
  intros (Hk & Hkd & Hu & Hd).
  destruct (files self) as [|kv d] eqn:Ef.
  { rewrite pick_empty by done. simpl. unfold pool_inv. by rewrite Ef in *. }
  destruct (pick_nonempty r self) as (key & file & Hin & ->); [by rewrite Ef|].
  rewrite <- Ef in *. clear Ef. simpl. unfold pool_inv; simpl.
  assert (file ∈ values (files self)) as Hv.
  { unfold values. by apply (list_elem_of_fmap_2 snd) in Hin. }
  split; [by apply dict_del_NoDup|]. split; [by apply dict_del_Forall|]. split.
  - apply NoDup_app. split; [done|]. split; [|apply NoDup_singleton].
    intros f Hf ->%list_elem_of_singleton. by apply Hd in Hf.
  - intros f [Hf| ->%list_elem_of_singleton]%elem_of_app.
    + intros [k' Hk']%values_elem_of. apply (Hd f Hf).
      apply dict_del_sub in Hk'. unfold values.
      by apply (list_elem_of_fmap_2 snd) in Hk'.
    + by apply dict_del_not_value.
Qed.

Lemma draw_inv listing (r : nat) (self : t) :
  pool_inv self -> pool_inv (snd (draw listing r self)).
Proof.
  intros H. pose proof (refill_inv listing self H) as Hr. unfold draw.
  destruct (refill listing self) as [[[]|e] self1]; simpl in *; [|done].
  by apply pick_inv.
Qed.

Lemma init_inv dn bs cl cs cw ch listing (self : t) :
  __init__ dn bs cl cs cw ch listing = Ok self -> pool_inv self.
Proof.
  unfold __init__. destruct listing as [file_list|e]; [|done].
  intros [= <-]. unfold pool_inv; simpl.
  split; [apply pool_of_NoDup|]. split; [apply pool_of_keyed|].
  split; [constructor|]. intros f Hf. by apply elem_of_nil in Hf.
Qed.

Lemma reaches_inv (self0 self : t) :
  pool_inv self0 -> reaches self0 self -> pool_inv self.
Proof. intros H0. induction 1; [done|]. by apply draw_inv. Qed.

Lemma reachable_inv (self : t) : reachable self -> pool_inv self.
Proof.
  intros (dn & bs & cl & cs & cw & ch & listing & self0 & Hinit & Hr).
  eapply reaches_inv; [|exact Hr]. by eapply init_inv.
Qed.

Lemma reaches_run inputs (self : t) : reaches self (run inputs self).
Proof.
  unfold run. rewrite <- (rev_involutive inputs).
  induction (rev inputs) as [|[listing r] l IH]; simpl; [constructor|].
  rewrite fold_left_app. simpl. by constructor.
Qed.

Lemma reaches_attributes (self0 self : t) :
  reaches self0 self ->
  count self = count self0 /\ batch_size self = batch_size self0.
Proof.
  induction 1 as [|listing r self _ [IH1 IH2]]; [done|].
  destruct (draw_attributes listing r self) as (_ & -> & _ & _ & _ & _ & ->). done.
Qed.

(** The files of one generation are in the record of used files, last. *)
Lemma generation_used (self self' : t) (fs : list string) :
  pool_inv self -> generation self fs self' ->
  pool_inv self' /\ exists pre, used_files self' = pre ++ fs.
Proof.
  intros Hinv. induction 1 as [listing r self key file self' Hd
    |listing r self fs self' key file self'' Hg IH Hne Hd].
  - split.
    + replace self' with (snd (draw listing r self)) by (by rewrite Hd).
      by apply draw_inv.
    + apply draw_Ok in Hd as (self1 & _ & _ & _ & ->). simpl. by eexists.
  - destruct (IH Hinv) as [Hinv' [pre Hpre]]. split.
    + replace self'' with (snd (draw listing r self')) by (by rewrite Hd).
      by apply draw_inv.
    + apply draw_Ok in Hd as (self1 & Hr & _ & _ & ->).
      rewrite refill_nonempty in Hr by done. injection Hr as <-.
      simpl. exists pre. by rewrite Hpre, app_assoc.
Qed.

Lemma run_length inputs (self : t) :
  (length inputs <= length (files self))%nat ->
  length (files (run inputs self)) = (length (files self) - length inputs)%nat.
Proof.
  revert self. induction inputs as [|[listing r] inputs IH]; intros self Hle.
  - simpl. lia.
  - simpl in *. destruct (draw_nonempty listing r self) as (key & file & Hin & Hd).
    { destruct (files self); [simpl in Hle; lia|done]. }
    unfold run in *. rewrite Hd. simpl.
    pose proof (dict_del_length (files self) key (keys_elem_of _ _ _ Hin)) as Hl.
    rewrite IH; simpl; lia.
Qed.


Lemma body_state env (i : Z) Xy (self : t) :
  snd (body env i Xy self)
  = snd (draw (listdir_at env (Z.to_nat i)) (choice_at env (Z.to_nat i)) self).
Proof.
  unfold body. destruct Xy as [X y].
  destruct (draw _ _ self) as [[[key file]|e] self1]; [|done]. simpl.
  destruct (load_image _ _ _ _ _); [|done].
  by destruct (encode _ _ _ _).
Qed.

Lemma for_range_reaches env indices Xy (self : t) :
  reaches self (snd (for_range env indices Xy self)).
Proof.
  revert Xy self. induction indices as [|i indices IH]; intros Xy self; simpl.
  - constructor.
  - pose proof (body_state env i Xy self) as Hb.
    assert (reaches self (snd (body env i Xy self))) as Hr.
    { rewrite Hb. constructor. constructor. }
    destruct (body env i Xy self) as [[Xy'|e] self1]; simpl in *; [|done].
    specialize (IH Xy' self1). clear Hb.
    induction IH; [done|]. by constructor.
Qed.

(** A call of [__getitem__] changes the object by draws only. *)
Lemma getitem_reaches env (self : t) (idx : Z) :
  reaches self (snd (__getitem__ env self idx)).
Proof.
  unfold __getitem__. destruct (zeros4 _ _ _); [|constructor].
  destruct (mapM _ _); [|constructor]. apply for_range_reaches.
Qed.

(** C2: between two refills of the pool no file name is drawn twice, and a
    file that was drawn is no longer in the pool. *)
Theorem no_repeat_between_refills (self self' : t) (fs : list string) :
  reachable self -> generation self fs self' ->
  NoDup fs /\ Forall (fun f => f ∉ values (files self')) fs.
Proof.
  intros Hr Hg. apply reachable_inv in Hr.
  destruct (generation_used self self' fs Hr Hg) as [(_ & _ & Hu & Hd) [pre Hpre]].
  rewrite Hpre in Hu, Hd. split.
  - by apply NoDup_app in Hu as (_ & _ & Hfs).
  - apply Forall_forall. intros f Hf. apply Hd, elem_of_app. by right.
Qed.

(** C3: for a positive batch size [__len__] is the floor of the number of
    entries listed at construction over the batch size, at any time. *)
Theorem len_floor dn bs cl cs cw ch file_list (self0 self : t) :
  (0 < bs)%Z ->
  __init__ dn bs cl cs cw ch (Ok file_list) = Ok self0 ->
  reaches self0 self ->
  __len__ self = Ok (len file_list / bs)%Z.
Proof.
  intros Hbs Hinit Hreach.
  destruct (reaches_attributes _ _ Hreach) as [Hc Hb].
  injection Hinit as <-. simpl in *.
  unfold __len__. rewrite Hc, Hb. by apply floor_div_pos.
Qed.



(** C9: the pool is keyed by the part of the file name before the first
    dot.  When two entries of the listing share it, the count has both but
    the pool has fewer entries than the count and never both files at a
    time; after as many draws as the pool has entries, fewer than the
    count, the pool is empty and the next draw refills it. *)
Theorem shared_prefix_pool dn bs cl cs cw ch (l1 l2 l3 : list string)
    (f1 f2 : string) (self0 : t) :
  split0 "." f1 = split0 "." f2 ->
  f1 <> f2 ->
  __init__ dn bs cl cs cw ch (Ok (l1 ++ f1 :: l2 ++ f2 :: l3)) = Ok self0 ->
  count self0 = len (l1 ++ f1 :: l2 ++ f2 :: l3)
  /\ (len (files self0) < count self0)%Z
  /\ (forall self, reaches self0 self ->
        (forall k v, (k, v) ∈ files self -> k = split0 "." v)
        /\ ~ (f1 ∈ values (files self) /\ f2 ∈ values (files self)))
  /\ (forall inputs, length inputs = length (files self0) ->
        files (run inputs self0) = []
        /\ forall file_list,
             files (snd (refill (Ok file_list) (run inputs self0)))
             = pool_of file_list).
Proof.
  intros Hk Hne Hinit. pose proof (init_inv _ _ _ _ _ _ _ _ Hinit) as Hinv0.
  injection Hinit as <-. simpl. split; [done|]. split; [|split].
  - unfold len. apply Nat2Z.inj_lt. by apply pool_of_shared.
  - intros self Hr. destruct (reaches_inv _ _ Hinv0 Hr) as (Hnd & Hkd & _ & _).
    split; [intros k v; by apply keyed_elem_of|].
    intros [[k1 H1]%values_elem_of [k2 H2]%values_elem_of].
    pose proof (keyed_elem_of _ _ _ Hkd H1) as E1.
    pose proof (keyed_elem_of _ _ _ Hkd H2) as E2.
    assert (k1 = k2) as -> by congruence.
    apply Hne. clear -Hnd H1 H2.
    induction (files self) as [|[k v] d IH]; [by apply elem_of_nil in H1|].
    simpl in Hnd. apply NoDup_cons in Hnd as [Hk Hnd].
    apply elem_of_cons in H1 as [E1|H1]; apply elem_of_cons in H2 as [E2|H2].
    + congruence.
    + injection E1 as -> ->. by apply keys_elem_of in H2.
    + injection E2 as -> ->. by apply keys_elem_of in H1.
    + by apply IH.
  - intros inputs Hlen.
    assert (files (run inputs {| directory_name := dn; batch_size := bs;
              captcha_length := cl; captcha_symbols := cs; captcha_width := cw;
              captcha_height := ch;
              files := pool_of (l1 ++ f1 :: l2 ++ f2 :: l3); used_files := [];
              count := len (l1 ++ f1 :: l2 ++ f2 :: l3) |}) = []) as He.
    { apply length_zero_iff_nil. rewrite run_length; simpl in *; lia. }
    split; [exact He|]. intros file_list. by rewrite refill_empty.
Qed.


(** ** Arrays and the encoding of a label *)

Lemma axis_index_nat (n k : nat) : (k < n)%nat -> axis_index n (Z.of_nat k) = Ok k.
Proof.
  intros Hk. unfold axis_index.
  destruct (Z.leb_spec 0 (Z.of_nat k)); [|lia].
  destruct (Z.ltb_spec (Z.of_nat k) (Z.of_nat n)); [|lia].
  simpl. by rewrite Nat2Z.id.
Qed.

Lemma axis_index_Ok (n : nat) (c : Z) (c' : nat) :
  axis_index n c = Ok c' ->
  (c' < n)%nat
  /\ ((0 <= c)%Z -> c' = Z.to_nat c)
  /\ ((c < 0)%Z -> Z.of_nat c' = (c + Z.of_nat n)%Z).
Proof.
  unfold axis_index.
  destruct (Z.leb_spec 0 c); destruct (Z.ltb_spec c (Z.of_nat n)); simpl;
    try destruct (Z.leb_spec (- Z.of_nat n) c); try destruct (Z.ltb_spec c 0);
    simpl; intros [= <-] || discriminate; repeat split; intros; lia.
Qed.

Lemma axis_index_Raise (n : nat) (c : Z) (e : exn) :
  axis_index n c = Raise e -> e = IndexError.
Proof.
  unfold axis_index.
  destruct (_ && _)%bool; [discriminate|].
  destruct (_ && _)%bool; [discriminate|]. by intros [= <-].
Qed.

(** Lines 90 and 91 on one array: row [k] becomes one-hot, or the column
    index is out of range. *)
Lemma set_row_item (a : ndarray2) (R C k : nat) (c : Z) :
  length a = R -> Forall (fun row => length row = C) a -> (k < R)%nat ->
  bind (set_row a (Z.of_nat k) 0) (fun a => set_item a (Z.of_nat k) c 1)
  = match axis_index C c with
    | Ok c' => Ok (<[k := one_hot C c']> a)
    | Raise e => Raise e
    end.
Proof.
  intros Ha Hrows Hk. unfold set_row, set_item.
  rewrite Ha, axis_index_nat by done. simpl.
  destruct (lookup_lt_is_Some_2 a k) as [row Hrow]; [lia|].
  unfold getitem. rewrite Hrow. simpl.
  rewrite length_insert, Ha, axis_index_nat by done. simpl.
  rewrite list_lookup_insert_eq by lia. simpl.
  rewrite length_replicate.
  assert (length row = C) as -> by (by eapply Forall_lookup_1 in Hrows).
  destruct (axis_index C c) as [c'|e]; simpl; [|done].
  by rewrite list_insert_insert_eq.
Qed.

Lemma one_hot_length (C c : nat) : length (one_hot C c) = C.
Proof. unfold one_hot. by rewrite length_insert, length_replicate. Qed.

Lemma row_sum_zeros (C : nat) : row_sum (replicate C 0%Z) = 0%Z.
Proof. induction C as [|C IH]; simpl; [done|]. by rewrite IH. Qed.

Lemma row_sum_one_hot (C c : nat) : (c < C)%nat -> row_sum (one_hot C c) = 1%Z.
Proof.
  revert c. induction C as [|C IH]; intros c Hc; [lia|].
  destruct c as [|c]; unfold one_hot in *; simpl.
  - by rewrite row_sum_zeros.
  - rewrite IH by lia. done.
Qed.

Lemma one_hot_last (C : nat) : one_hot (S C) C = replicate C 0%Z ++ [1%Z].
Proof.
  unfold one_hot. induction C as [|C IH]; simpl; [done|].
  simpl in IH. by rewrite IH.
Qed.

Lemma shaped_insert (R C : nat) (y : list ndarray2) (j k c : nat) (a : ndarray2) :
  shaped R C y -> y !! j = Some a ->
  shaped R C (<[j := <[k := one_hot C c]> a]> y).
Proof.
  intros Hy Ha. unfold shaped in *. apply Forall_insert; [done|].
  eapply Forall_lookup_1 in Hy as [Hlen Hrows]; [|exact Ha].
  split; [by rewrite length_insert|].
  destruct (decide (k < length a)%nat) as [Hk|Hk].
  - apply Forall_insert; [done|]. apply one_hot_length.
  - by rewrite list_insert_ge by lia.
Qed.

Lemma cell_insert_ne_row (y : list ndarray2) (j j' k k' : nat) (a : ndarray2) row :
  y !! j = Some a -> k' <> k ->
  cell (<[j := <[k := row]> a]> y) j' k' = cell y j' k'.
Proof.
  intros Ha Hk. unfold cell. destruct (decide (j = j')) as [->|Hj].
  - rewrite list_lookup_insert_eq by (by eapply lookup_lt_Some).
    rewrite Ha. by rewrite list_lookup_insert_ne.
  - by rewrite list_lookup_insert_ne.
Qed.

Lemma cell_insert_ne_array (y : list ndarray2) (j j' k' : nat) (a : ndarray2) :
  j <> j' -> cell (<[j := a]> y) j' k' = cell y j' k'.
Proof. intros Hj. unfold cell. by rewrite list_lookup_insert_ne. Qed.

Lemma cell_insert_eq (R : nat) (y : list ndarray2) (j k : nat) (a : ndarray2) row :
  y !! j = Some a -> length a = R -> (k < R)%nat ->
  cell (<[j := <[k := row]> a]> y) j k = Some row.
Proof.
  intros Ha Hlen Hk. unfold cell.
  rewrite list_lookup_insert_eq by (by eapply lookup_lt_Some).
  by rewrite list_lookup_insert_eq by lia.
Qed.

(** What a run of the encoding loop that returns has done. *)
Lemma encode_Ok (symbols : string) (R C k : nat) (label : list ascii) :
  (k < R)%nat ->
  forall (j0 : nat) (y y' : list ndarray2),
    shaped R C y ->
    encode symbols (Z.of_nat k) (enumerate_from (Z.of_nat j0) label) y = Ok y' ->
    shaped R C y'
    /\ length y' = length y
    /\ (label = [] \/ j0 + length label <= length y)%nat
    /\ (forall j k', k' <> k -> cell y' j k' = cell y j k')
    /\ (forall j, (j < j0 \/ j0 + length label <= j)%nat -> cell y' j k = cell y j k)
    /\ (forall j ch, label !! j = Some ch ->
          exists c, axis_index C (find symbols ch) = Ok c
                    /\ cell y' (j0 + j) k = Some (one_hot C c)).
Proof.
  intros Hk. induction label as [|ch label IH]; intros j0 y y' Hy; simpl.
  - intros [= <-]. split; [done|]. split; [done|]. split; [by left|].
    split; [done|]. split; [done|]. intros j ch Hj. by rewrite lookup_nil in Hj.
  - rewrite Nat2Z.id. unfold getitem at 1.
    destruct (y !! j0) as [a|] eqn:Ha; simpl; [|done].
    pose proof Hy as Hya. eapply Forall_lookup_1 in Hya as [Hlen Hrows]; [|exact Ha].
    pose proof (set_row_item a R C k (find symbols ch) Hlen Hrows Hk) as Hsr.
    unfold bind in Hsr at 1.
    destruct (set_row a (Z.of_nat k) 0) as [a1|e1]; simpl.
    2:{ destruct (axis_index C (find symbols ch)); discriminate. }
    rewrite Hsr. destruct (axis_index C (find symbols ch)) as [c|e] eqn:Hc; simpl; [|done].
    replace (Z.of_nat j0 + 1)%Z with (Z.of_nat (S j0)) by lia.
    intros Henc. apply IH in Henc as (Hs & Hl & Hb & Ho & Hu & Hw);
      [|by apply shaped_insert].
    rewrite length_insert in Hl, Hb. apply lookup_lt_Some in Ha as Hj0.
    assert (S j0 + length label <= length y)%nat as Hb'
      by (destruct Hb as [->|Hb]; simpl; lia).
    split; [done|]. split; [done|]. split; [right; simpl; lia|]. split; [|split].
    + intros j k' Hk'. rewrite Ho by done. by apply cell_insert_ne_row.
    + intros j Hj. rewrite Hu by lia. apply cell_insert_ne_array. lia.
    + intros [|j] ch' Hj; simpl in Hj.
      * injection Hj as <-. exists c. split; [done|].
        rewrite Nat.add_0_r, Hu by lia. by eapply cell_insert_eq.
      * replace (j0 + S j)%nat with (S j0 + j)%nat by lia. by apply Hw.
Qed.

(** The encoding loop raises nothing but [IndexError]. *)
Lemma encode_Raise (symbols : string) (i : Z) jchs (y : list ndarray2) (e : exn) :
  encode symbols i jchs y = Raise e -> e = IndexError.
Proof.
  revert y. induction jchs as [|[j ch] jchs IH]; intros y; simpl; [done|].
  unfold getitem at 1. destruct (y !! Z.to_nat j) as [a|]; simpl; [|by intros [= <-]].
  unfold set_row. destruct (axis_index (length a) i) as [i'|e1] eqn:E1; simpl;
    [|intros [= <-]; by apply axis_index_Raise in E1].
  unfold getitem at 1. destruct (a !! i') as [row|]; simpl; [|by intros [= <-]].
  unfold set_item. rewrite length_insert, E1. simpl.
  unfold getitem at 1. destruct (_ !! i') as [row'|]; simpl; [|by intros [= <-]].
  destruct (axis_index _ (find symbols ch)) as [c|e3] eqn:E3; simpl;
    [|intros [= <-]; by apply axis_index_Raise in E3].
  apply IH.
Qed.


(** ** The loop of [__getitem__] *)

Lemma lookup_label_None (label : list ascii) (j : nat) :
  label !! j = None -> (length label <= j)%nat.
Proof. apply lookup_ge_None_1. Qed.

(** What a run of the loop over [range] that returns has put into [y]. *)
Lemma for_range_Ok env (R C : nat) (syms : string) (n : nat) :
  forall (k0 : nat) X (y : list ndarray2) (self : t) X' y' self',
    captcha_symbols self = syms ->
    shaped R C y ->
    (k0 + n <= R)%nat ->
    for_range env (map Z.of_nat (seq k0 n)) (X, y) self = (Ok (X', y'), self') ->
    shaped R C y'
    /\ length y' = length y
    /\ length (drawn env (map Z.of_nat (seq k0 n)) self) = n
    /\ (forall j k, (k < k0 \/ k0 + n <= k)%nat -> cell y' j k = cell y j k)
    /\ (forall i key file,
          drawn env (map Z.of_nat (seq k0 n)) self !! i = Some (key, file) ->
          (length (label_of key) <= length y)%nat
          /\ forall j,
               match label_of key !! j with
               | Some ch =>
                   exists c, axis_index C (find syms ch) = Ok c
                             /\ cell y' j (k0 + i) = Some (one_hot C c)
               | None => cell y' j (k0 + i) = cell y j (k0 + i)
               end).
Proof.
  induction n as [|n IH]; intros k0 X y self X' y' self' Hsyms Hy Hk; simpl.
  - intros [= <- <- <-]. split; [done|]. split; [done|]. split; [done|].
    split; [done|]. intros i key file Hi. by rewrite lookup_nil in Hi.
  - unfold body. rewrite Nat2Z.id.
    pose proof (draw_attributes (listdir_at env k0) (choice_at env k0) self) as Hattr.
    destruct (draw (listdir_at env k0) (choice_at env k0) self)
      as [[[key0 file0]|e] self1]; [|done].
    simpl in Hattr. destruct Hattr as (_ & _ & _ & Hsyms1 & _ & _ & _).
    destruct (load_image env _ _ _ _) as [img|e]; [|done].
    rewrite Hsyms1, Hsyms.
    destruct (encode syms (Z.of_nat k0) (enumerate (label_of key0)) y)
      as [y1|e] eqn:Henc; [|done].
    intros Hfor.
    apply (encode_Ok syms R C k0 (label_of key0)) with (j0 := 0%nat) in Henc
      as (Hs1 & Hl1 & Hb1 & Ho1 & Hu1 & Hw1); [|lia|done].
    apply IH in Hfor as (Hs & Hl & Hd & Hout & Hin);
      [|congruence|done|lia].
    split; [done|]. split; [congruence|]. split; [simpl; by rewrite Hd|].
    split; [|].
    + intros j k Hjk. rewrite Hout by lia. apply Ho1. lia.
    + intros [|i] key file Hi; simpl in Hi.
      * injection Hi as -> ->. split; [destruct Hb1 as [->|?]; simpl; lia|].
        intros j. rewrite Nat.add_0_r. rewrite Hout by lia.
        destruct (label_of key !! j) as [ch|] eqn:Hj.
        -- destruct (Hw1 j ch Hj) as (c & Hc & Hcell). exists c. by split.
        -- apply Hu1. right. simpl. by apply lookup_label_None.
      * destruct (Hin i key file Hi) as [Hlen Hrows]. split; [lia|].
        intros j. specialize (Hrows j).
        replace (k0 + S i)%nat with (S k0 + i)%nat by lia.
        destruct (label_of key !! j) as [ch|]; [done|].
        rewrite Hrows. apply Ho1. lia.
Qed.

Lemma mapM_const {A B : Type} (b : B) (l : list A) :
  mapM (fun _ => Ok b) l = Ok (replicate (length l) b).
Proof. induction l as [|a l IH]; simpl; [done|]. by rewrite IH. Qed.

Lemma zeros_Ok (r c : Z) :
  (0 <= r)%Z -> (0 <= c)%Z ->
  zeros r c = Ok (replicate (Z.to_nat r) (replicate (Z.to_nat c) 0%Z)).
Proof.
  intros Hr Hc. unfold zeros.
  destruct (Z.ltb_spec r 0); [lia|]. destruct (Z.ltb_spec c 0); [lia|]. done.
Qed.

Lemma zeros4_Ok (n h w : Z) X :
  zeros4 n h w = Ok X -> (0 <= n)%Z /\ (0 <= h)%Z /\ (0 <= w)%Z.
Proof.
  unfold zeros4. destruct (Z.ltb_spec n 0); [done|].
  destruct (Z.ltb_spec h 0); [done|]. destruct (Z.ltb_spec w 0); [done|]. lia.
Qed.

Lemma shaped_zeros (L R C : nat) :
  shaped R C (replicate L (replicate R (replicate C 0%Z))).
Proof.
  apply Forall_replicate. split; [by rewrite length_replicate|].
  apply Forall_replicate. by rewrite length_replicate.
Qed.

Lemma cell_zeros (L R C j k : nat) :
  (j < L)%nat -> (k < R)%nat ->
  cell (replicate L (replicate R (replicate C 0%Z))) j k = Some (replicate C 0%Z).
Proof.
  intros Hj Hk. unfold cell. rewrite lookup_replicate_2 by done.
  by rewrite lookup_replicate_2.
Qed.

(** The rows of a batch that [__getitem__] returns, sample by sample. *)
Lemma getitem_rows env (self : t) (idx : Z) X (y : list ndarray2) :
  fst (__getitem__ env self idx) = Ok (X, y) ->
  let R := Z.to_nat (batch_size self) in
  let C := length (alphabet self) in
  let L := Z.to_nat (captcha_length self) in
  length y = L
  /\ shaped R C y
  /\ length (batch env self) = R
  /\ (forall k key file,
        batch env self !! k = Some (key, file) ->
        (length (label_of key) <= L)%nat
        /\ forall j, (j < L)%nat ->
             match label_of key !! j with
             | Some ch =>
                 exists c, axis_index C (find (captcha_symbols self) ch) = Ok c
                           /\ cell y j k = Some (one_hot C c)
             | None => cell y j k = Some (replicate C 0%Z)
             end).
Proof.
  unfold __getitem__, batch, alphabet.
  destruct (zeros4 _ _ _) as [X0|e] eqn:HX; [|done].
  apply zeros4_Ok in HX as (Hbs & _ & _).
  rewrite zeros_Ok by (unfold len; lia). rewrite mapM_const, range_length.
  unfold len. rewrite Nat2Z.id.
  set (R := Z.to_nat (batch_size self)).
  set (C := length (list_ascii_of_string (captcha_symbols self))).
  set (L := Z.to_nat (captcha_length self)).
  destruct (for_range _ _ _ _) as [[[X' y']|e] self'] eqn:Hfor; [|done].
  simpl. intros [= -> ->]. unfold range in *. fold R in Hfor |- *.
  apply (for_range_Ok env R C (captcha_symbols self)) in Hfor
    as (Hs & Hl & Hd & _ & Hin); [|done|apply shaped_zeros|lia].
  rewrite length_replicate in Hl, Hin.
  split; [done|]. split; [done|]. split; [done|].
  intros k key file Hk. destruct (Hin k key file Hk) as [Hlen Hrows].
  split; [done|]. intros j Hj. specialize (Hrows j). simpl in Hrows.
  destruct (label_of key !! j) as [ch|]; [done|].
  rewrite Hrows. apply cell_zeros; [done|].
  apply lookup_lt_Some in Hk. by rewrite Hd in Hk.
Qed.


Lemma find_from_elem_of (s : string) (ch : ascii) (pos : Z) :
  ch ∈ list_ascii_of_string s ->
  (pos <= find_from s ch pos < pos + Z.of_nat (length (list_ascii_of_string s)))%Z.
Proof.
  revert pos. induction s as [|c s IH]; intros pos Hin; simpl in *.
  - by apply elem_of_nil in Hin.
  - destruct (Ascii.eqb_spec c ch) as [->|Hne]; [lia|].
    apply elem_of_cons in Hin as [?|Hin]; [congruence|].
    specialize (IH (pos + 1)%Z Hin). lia.
Qed.

Lemma find_from_not_elem_of (s : string) (ch : ascii) (pos : Z) :
  ch ∉ list_ascii_of_string s -> find_from s ch pos = (-1)%Z.
Proof.
  revert pos. induction s as [|c s IH]; intros pos Hin; simpl in *; [done|].
  destruct (Ascii.eqb_spec c ch) as [->|Hne].
  - exfalso. apply Hin, elem_of_cons. by left.
  - apply IH. intros H. apply Hin, elem_of_cons. by right.
Qed.

(** What happens when the loop meets a label longer than [y]. *)
Lemma for_range_long env (R C : nat) (syms dn : string) (h w : Z) (n : nat) :
  (forall f, exists img, load_image env dn f h w = Ok img) ->
  forall (k0 : nat) X (y : list ndarray2) (self : t) k key file,
    captcha_symbols self = syms ->
    directory_name self = dn ->
    captcha_height self = h ->
    captcha_width self = w ->
    shaped R C y ->
    (k0 + n <= R)%nat ->
    drawn env (map Z.of_nat (seq k0 n)) self !! k = Some (key, file) ->
    (length y < length (label_of key))%nat ->
    fst (for_range env (map Z.of_nat (seq k0 n)) (X, y) self) = Raise IndexError.
Proof.
  intros Hload. induction n as [|n IH];
    intros k0 X y self k key file Hsyms Hdn Hh Hw Hy Hk; simpl.
  - intros Hd. by rewrite lookup_nil in Hd.
  - unfold body. rewrite Nat2Z.id.
    pose proof (draw_attributes (listdir_at env k0) (choice_at env k0) self) as Hattr.
    destruct (draw (listdir_at env k0) (choice_at env k0) self)
      as [[[key0 file0]|e] self1]; [|intros Hd; by rewrite lookup_nil in Hd].
    simpl in Hattr. destruct Hattr as (Hdn1 & _ & _ & Hsyms1 & Hw1 & Hh1 & _).
    rewrite Hdn1, Hh1, Hw1, Hsyms1, Hdn, Hh, Hw, Hsyms.
    destruct (Hload file0) as [img ->].
    intros Hd Hlong.
    destruct (encode syms (Z.of_nat k0) (enumerate (label_of key0)) y)
      as [y1|e] eqn:Henc.
    + apply (encode_Ok syms R C k0 (label_of key0)) with (j0 := 0%nat) in Henc
        as (Hs1 & Hl1 & Hb1 & _); [|lia|done].
      destruct k as [|k]; simpl in Hd.
      * injection Hd as -> ->. destruct Hb1 as [Hb1|Hb1]; [rewrite Hb1 in Hlong|];
          simpl in *; lia.
      * eapply IH; [congruence..|done|lia|exact Hd|lia].
    + apply encode_Raise in Henc as ->. done.
Qed.

(** C4: in a batch whose labels all have the configured length and only
    characters of the alphabet, the label output has that many arrays of
    [batch_size] rows and alphabet-size columns, and every row is one-hot:
    it sums to one. *)
Theorem batch_labels_one_hot env (self : t) (idx : Z) X (y : list ndarray2) :
  fst (__getitem__ env self idx) = Ok (X, y) ->
  (forall key file, (key, file) ∈ batch env self ->
     len (label_of key) = captcha_length self
     /\ Forall (fun ch => ch ∈ alphabet self) (label_of key)) ->
  length y = Z.to_nat (captcha_length self)
  /\ Forall (fun a =>
       length a = Z.to_nat (batch_size self)
       /\ Forall (fun row =>
            length row = length (alphabet self)
            /\ row_sum row = 1%Z
            /\ exists c, row = one_hot (length (alphabet self)) c) a) y.
Proof.
  intros Hget Hlabels.
  destruct (getitem_rows env self idx X y Hget) as (HL & Hs & HR & Hrows).
  split; [done|]. apply Forall_lookup. intros j a Hj.
  pose proof Hs as Hsa. eapply Forall_lookup_1 in Hsa as [Hlen _]; [|exact Hj].
  split; [done|]. apply Forall_lookup. intros k row Hk.
  assert (k < length (batch env self))%nat as Hkb.
  { rewrite HR, <- Hlen. by eapply lookup_lt_Some. }
  destruct (lookup_lt_is_Some_2 _ _ Hkb) as [[key file] Hb].
  destruct (Hlabels key file) as [Hlab Hchars]; [by eapply list_elem_of_lookup_2|].
  destruct (Hrows k key file Hb) as [_ Hcells].
  assert (j < Z.to_nat (captcha_length self))%nat as HjL.
  { rewrite <- HL. by eapply lookup_lt_Some. }
  specialize (Hcells j HjL).
  assert (j < length (label_of key))%nat as Hjl by (unfold len in Hlab; lia).
  destruct (lookup_lt_is_Some_2 _ _ Hjl) as [ch Hch]. rewrite Hch in Hcells.
  destruct Hcells as (c & Hc & Hcell).
  unfold cell in Hcell. rewrite Hj, Hk in Hcell. injection Hcell as ->.
  apply axis_index_Ok in Hc as (Hc & _ & _).
  split; [apply one_hot_length|]. split; [by apply row_sum_one_hot|]. by exists c.
Qed.

(** C1, as the code has it: in every batch produced, the row of a
    character outside the alphabet is not left at zero; [find] returns
    [-1], which numpy reads as the last column, so the row is zero except
    for a one in the last position.  No error is raised. *)
Theorem unmapped_row_last env (self : t) (idx : Z) X (y : list ndarray2)
    (k j : nat) (key file : string) (ch : ascii) (row : list Z) :
  fst (__getitem__ env self idx) = Ok (X, y) ->
  batch env self !! k = Some (key, file) ->
  label_of key !! j = Some ch ->
  ch ∉ alphabet self ->
  cell y j k = Some row ->
  find (captcha_symbols self) ch = (-1)%Z
  /\ row = replicate (length (alphabet self) - 1) 0%Z ++ [1%Z]
  /\ row_sum row = 1%Z.
Proof.
  intros Hget Hb Hch Hnot Hcell.
  destruct (getitem_rows env self idx X y Hget) as (HL & Hs & HR & Hrows).
  destruct (Hrows k key file Hb) as [Hlen Hcells].
  apply lookup_lt_Some in Hch as Hj.
  specialize (Hcells j ltac:(lia)). rewrite Hch in Hcells.
  destruct Hcells as (c & Hc & Hcell').
  rewrite Hcell in Hcell'. injection Hcell' as ->.
  assert (find (captcha_symbols self) ch = (-1)%Z) as Hfind
    by (by apply find_from_not_elem_of).
  rewrite Hfind in Hc. apply axis_index_Ok in Hc as (Hlt & _ & Hneg).
  specialize (Hneg ltac:(lia)). split; [done|].
  destruct (length (alphabet self)) as [|C] eqn:EC; [lia|].
  assert (c = C) as -> by lia. split.
  - rewrite one_hot_last. by replace (S C - 1)%nat with C by lia.
  - apply row_sum_one_hot. lia.
Qed.

Lemma zeros4_nonneg (n h w : Z) :
  (0 <= n)%Z -> (0 <= h)%Z -> (0 <= w)%Z -> exists X, zeros4 n h w = Ok X.
Proof.
  intros Hn Hh Hw. unfold zeros4.
  destruct (Z.ltb_spec n 0); [lia|]. destruct (Z.ltb_spec h 0); [lia|].
  destruct (Z.ltb_spec w 0); [lia|]. by eexists.
Qed.

(** C10: when a sample of the batch has a label longer than the number of
    label arrays (the configured length, when that is not negative),
    [__getitem__] returns no batch; when the image slots can be allocated
    and the images load, what it raises is [IndexError]. *)
Theorem long_label_raises env (self : t) (idx : Z) (k : nat) (key file : string) :
  batch env self !! k = Some (key, file) ->
  (Z.to_nat (captcha_length self) < length (label_of key))%nat ->
  (forall Xy, fst (__getitem__ env self idx) <> Ok Xy)
  /\ ((0 <= captcha_height self)%Z ->
      (0 <= captcha_width self)%Z ->
      (forall f, exists img,
          load_image env (directory_name self) f
            (captcha_height self) (captcha_width self) = Ok img) ->
      fst (__getitem__ env self idx) = Raise IndexError).
Proof.
  intros Hb Hlong. split.
  - intros [X y] Hget.
    destruct (getitem_rows env self idx X y Hget) as (_ & _ & _ & Hrows).
    destruct (Hrows k key file Hb) as [Hlen _]. lia.
  - intros Hh Hw Hload. unfold __getitem__.
    assert (0 < batch_size self)%Z as Hbs.
    { unfold batch, range in Hb. apply lookup_lt_Some in Hb.
      destruct (Z.to_nat (batch_size self)) eqn:E; [simpl in Hb; lia|lia]. }
    destruct (zeros4_nonneg (batch_size self) (captcha_height self)
                (captcha_width self)) as [X0 ->]; [lia|done|done|].
    rewrite zeros_Ok by (unfold len; lia). rewrite mapM_const, range_length.
    unfold batch, range in *.
    eapply (for_range_long env (Z.to_nat (batch_size self))); try done.
    + apply shaped_zeros.
    + by rewrite length_replicate.
Qed.


(** ** The driver *)

(** C6: when a required flag is missing, [main] prints the message of the
    first missing flag in the order of the checks and exits with code 1;
    it makes no other call, so no model is built and nothing is trained. *)
Theorem main_missing_flag be args g :
  missing args g = true ->
  exists f, first_missing args = Some f
    /\ main be args = ([print (message f)], Raise (SystemExit 1))
    /\ existsb is_build (fst (main be args)) = false
    /\ existsb is_fit (fst (main be args)) = false.
Proof.
  intros Hg. destruct args as [w h l b td vd o im e s].
  unfold first_missing, main; simpl.
  destruct w; [|eexists; repeat split; reflexivity].
  destruct h; [|eexists; repeat split; reflexivity].
  destruct l; [|eexists; repeat split; reflexivity].
  destruct b; [|eexists; repeat split; reflexivity].
  destruct e; [|eexists; repeat split; reflexivity].
  destruct td; [|eexists; repeat split; reflexivity].
  destruct vd; [|eexists; repeat split; reflexivity].
  destruct o; [|eexists; repeat split; reflexivity].
  destruct s; [|eexists; repeat split; reflexivity].
  destruct g; discriminate.
Qed.

Lemma suffix_cons {A : Type} (a : A) (l s : list A) :
  (exists tr, l = tr ++ s) -> exists tr, a :: l = tr ++ s.
Proof. intros [tr ->]. by exists (a :: tr). Qed.

Lemma suffix_refl {A : Type} (s : list A) : exists tr, s = tr ++ s.
Proof. by exists []. Qed.

Ltac not_reached H := exfalso; simpl in H; intuition discriminate.

(** C7, as the code has it: when the call of the training loop raises
    [KeyboardInterrupt], [main] catches it, prints a notice and calls
    [save_weights] on [<output-model-name>_resume.h5]; it returns normally
    when that call returns, and what that call raises propagates.  Any
    other exception of the training loop propagates and no weights are
    saved. *)
Theorem main_interrupt be args x v ep cbs name e :
  In (fit x v ep cbs) (fst (main be args)) ->
  Args.output_model_name args = Some name ->
  raises be (fit x v ep cbs) = Some e ->
  (e = KeyboardInterrupt ->
     (exists tr, fst (main be args) =
          tr ++ [fit x v ep cbs;
                 print ("KeyboardInterrupt caught, saving current weights as "
                          ++ name ++ "_resume.h5")%string;
                 save_weights (name ++ "_resume.h5")%string])
     /\ snd (main be args) =
          match raises be (save_weights (name ++ "_resume.h5")%string) with
          | None => Ok tt
          | Some e' => Raise e'
          end)
  /\ (e <> KeyboardInterrupt ->
        snd (main be args) = Raise e
        /\ existsb is_save_weights (fst (main be args)) = false).
Proof.
  destruct args as [w h l b td vd o im ep' s].
  unfold main; simpl.
  intros Hin Ho Hfit.
  destruct w, h, l, b, ep', td, vd, o, s; try not_reached Hin.
  injection Ho as ->.
  unfold train, io_bind, perform, observe, try_except_KeyboardInterrupt, say in *.
  destruct (readline_strip be _) as [syms|]; [|not_reached Hin].
  destruct (raises be (build _)); [not_reached Hin|].
  destruct im as [path|]; [destruct (raises be (load_weights path))|];
    try not_reached Hin.
  all: destruct (raises be (compile _ _ _)); [not_reached Hin|].
  all: destruct (raises be summary); [not_reached Hin|].
  all: destruct (ImageSequence.__init__ _ _ _ _ _ _ (os_listdir be s0))
         as [training_data|]; [|not_reached Hin].
  all: destruct (ImageSequence.__init__ _ _ _ _ _ _ (os_listdir be s1))
         as [validation_data|]; [|not_reached Hin].
  all: destruct (raises be (write_json _)); [not_reached Hin|].
  all: assert (fit x v ep cbs = fit training_data validation_data z3
            [EarlyStopping 3; ModelCheckpoint (name ++ ".keras") false]) as Heq
         by (destruct (raises be (fit training_data _ _ _)) as [[]|];
             [..|destruct (raises be (save_weights _))| | |];
             simpl in Hin; intuition congruence).
  all: rewrite <- Heq in *; rewrite Hfit in *; clear Hin.
  all: split;
    [ intros ->; destruct (raises be (save_weights _)); simpl;
      (split; [repeat first [apply suffix_refl | apply suffix_cons]|reflexivity])
    | intros Hne; destruct e; try congruence; simpl; split; reflexivity ].
Qed.

(** ** The statements at concrete inputs *)

(** The alphabet ["ac"] lacks the ["b"] of the label ["ab"]: the row of
    the second label position of the first sample comes out as [[0; 1]]. *)
Lemma unmapped_row_counterexample : ~ unmapped_row_is_zero.
Proof.
  intros H.
  specialize (H Sample.env Sample.feeder_short_alphabet 0%Z
                [Sample.pixel; Sample.pixel]
                [[[1; 0]; [0; 1]]; [[0; 1]; [1; 0]]]%Z
                0%nat "ab_0" "ab_0.png" 1%nat "b"%char [0; 1]%Z).
  assert (Forall (fun v => v = 0%Z) [0; 1]%Z) as Hrow.
  { apply H; try reflexivity.
    intros Hin. vm_compute in Hin.
    repeat (apply elem_of_cons in Hin as [Hin|Hin]; [discriminate|]).
    by apply elem_of_nil in Hin. }
  apply Forall_cons in Hrow as [_ Hrow]. apply Forall_cons in Hrow as [Hone _].
  discriminate.
Qed.

Lemma unmapped_row_last_witness :
  fst (__getitem__ Sample.env Sample.feeder_short_alphabet 0)
    = Ok ([Sample.pixel; Sample.pixel], [[[1; 0]; [0; 1]]; [[0; 1]; [1; 0]]]%Z)
  /\ find "ac" "b" = (-1)%Z
  /\ [0; 1]%Z = replicate (length (alphabet Sample.feeder_short_alphabet) - 1) 0%Z ++ [1%Z]
  /\ row_sum [0; 1]%Z = 1%Z.
Proof.
  split; [reflexivity|].
  apply (unmapped_row_last Sample.env Sample.feeder_short_alphabet 0%Z
           [Sample.pixel; Sample.pixel] [[[1; 0]; [0; 1]]; [[0; 1]; [1; 0]]]%Z
           0%nat 1%nat "ab_0" "ab_0.png" "b"%char [0; 1]%Z); try reflexivity.
  intros Hin. vm_compute in Hin.
  repeat (apply elem_of_cons in Hin as [Hin|Hin]; [discriminate|]).
  by apply elem_of_nil in Hin.
Defined.

Lemma no_repeat_between_refills_witness :
  NoDup ["ab_0.png"; "ba_1.png"]
  /\ Forall (fun f => f ∉ values (files (run [(Ok Sample.two_files, 0%nat);
                                              (Ok Sample.two_files, 0%nat)]
                                           Sample.feeder)))
       ["ab_0.png"; "ba_1.png"].
Proof.
  apply (no_repeat_between_refills Sample.feeder).
  - exists "data", 2%Z, 2%Z, "ab", 1%Z, 1%Z, (Ok Sample.two_files), Sample.feeder.
    split; [reflexivity|constructor].
  - apply (generation_next (Ok Sample.two_files) 0 Sample.feeder ["ab_0.png"]
             (run [(Ok Sample.two_files, 0%nat)] Sample.feeder) "ba_1" "ba_1.png").
    + by apply (generation_first (Ok Sample.two_files) 0 Sample.feeder "ab_0" "ab_0.png").
    + discriminate.
    + reflexivity.
Defined.

Lemma len_floor_witness :
  __len__ (run [(Ok Sample.five_files, 3%nat)]
             (mk "data" 2 2 "ab" 1 1 (pool_of Sample.five_files) [] 5))
  = Ok 2%Z.
Proof.
  apply (len_floor "data" 2 2 "ab" 1 1 Sample.five_files
           (mk "data" 2 2 "ab" 1 1 (pool_of Sample.five_files) [] 5)).
  - lia.
  - reflexivity.
  - apply reaches_run.
Defined.

Lemma batch_labels_one_hot_witness :
  length [[[1; 0]; [0; 1]]; [[0; 1]; [1; 0]]]%Z = Z.to_nat (captcha_length Sample.feeder)
  /\ Forall (fun a =>
       length a = Z.to_nat (batch_size Sample.feeder)
       /\ Forall (fun row =>
            length row = length (alphabet Sample.feeder)
            /\ row_sum row = 1%Z
            /\ exists c, row = one_hot (length (alphabet Sample.feeder)) c) a)
       [[[1; 0]; [0; 1]]; [[0; 1]; [1; 0]]]%Z.
Proof.
  apply (batch_labels_one_hot Sample.env Sample.feeder 0%Z [Sample.pixel; Sample.pixel]).
  - reflexivity.
  - intros key file Hin. vm_compute in Hin.
    apply elem_of_cons in Hin as [Hin|Hin];
      [|apply elem_of_cons in Hin as [Hin|Hin]; [|by apply elem_of_nil in Hin]];
      injection Hin as -> ->; (split; [reflexivity|]); vm_compute;
      repeat constructor.
Defined.



Lemma shared_prefix_pool_witness :
  count (mk "data" 2 2 "ab" 1 1 (pool_of Sample.shared_prefix) [] 2) = 2%Z
  /\ (len (pool_of Sample.shared_prefix) < 2)%Z.
Proof.
  pose proof (shared_prefix_pool "data" 2 2 "ab" 1 1 [] [] [] "ab_0.png" "ab_0.jpg"
                (mk "data" 2 2 "ab" 1 1 (pool_of Sample.shared_prefix) [] 2))
    as H.
  destruct H as (Hc & Hl & _); [reflexivity|discriminate|reflexivity|].
  split; [exact Hc|exact Hl].
Defined.

Lemma long_label_raises_witness :
  fst (__getitem__ Sample.env Sample.feeder_short_length 0) = Raise IndexError.
Proof.
  apply (long_label_raises Sample.env Sample.feeder_short_length 0%Z 0%nat
           "ab_0" "ab_0.png").
  - reflexivity.
  - vm_compute. lia.
  - vm_compute. discriminate.
  - vm_compute. discriminate.
  - intros f. by exists Sample.pixel.
Defined.

Lemma main_missing_flag_witness :
  exists f, first_missing Sample.args_without_symbols = Some f
    /\ main Sample.interrupted Sample.args_without_symbols
       = ([print (message f)], Raise (SystemExit 1))
    /\ existsb is_build (fst (main Sample.interrupted Sample.args_without_symbols)) = false
    /\ existsb is_fit (fst (main Sample.interrupted Sample.args_without_symbols)) = false.
Proof.
  apply (main_missing_flag Sample.interrupted Sample.args_without_symbols flag_symbols).
  reflexivity.
Defined.

(** With a [save_weights] that raises, an interrupted [main] raises too. *)
Lemma interrupt_returns_normally_counterexample :
  ~ Driver.interrupt_returns_normally.
Proof.
  intros H.
  specialize (H Sample3.interrupted_save_raises Sample3.args
                (Sample3.dataset "train") (Sample3.dataset "validate") 1%Z
                Sample3.callbacks).
  assert (snd (main Sample3.interrupted_save_raises Sample3.args) = Ok tt) as Hok.
  { apply H; [|reflexivity]. vm_compute. repeat first [left; reflexivity | right]. }
  vm_compute in Hok. discriminate.
Qed.

Lemma main_interrupt_witness :
  (exists tr, fst (main Sample3.interrupted_save_returns Sample3.args) =
       tr ++ [fit (Sample3.dataset "train") (Sample3.dataset "validate") 1
                Sample3.callbacks;
              print "KeyboardInterrupt caught, saving current weights as model_resume.h5";
              save_weights "model_resume.h5"])
  /\ snd (main Sample3.interrupted_save_returns Sample3.args) = Ok tt.
Proof.
  apply (main_interrupt Sample3.interrupted_save_returns Sample3.args
           (Sample3.dataset "train") (Sample3.dataset "validate") 1 Sample3.callbacks
           "model" KeyboardInterrupt); try reflexivity.
  vm_compute. repeat first [left; reflexivity | right].
Defined.

(** * Further properties *)

(** ** Lengths and the pool built from a listing *)

Lemma reachable_count (self : t) : reachable self -> (0 <= count self)%Z.
Proof.
  intros (dn & bs & cl & cs & cw & ch & listing & self0 & Hinit & Hr).
  destruct (reaches_attributes _ _ Hr) as [-> _].
  unfold __init__ in Hinit. destruct listing as [file_list|]; [|done].
  injection Hinit as <-. simpl. unfold len. lia.
Qed.

(** X1: on an object that [__init__] built, [__len__] raises
    [ZeroDivisionError] for a batch size of zero; for a positive batch
    size it returns a number [n] of batches that is not negative and for
    which [n] batches take at most [count] samples while [n + 1] batches
    would take more. *)
Theorem len_zero_or_bounds (self : t) :
  reachable self ->
  (batch_size self = 0%Z -> __len__ self = Raise ZeroDivisionError)
  /\ ((0 < batch_size self)%Z ->
        exists n, __len__ self = Ok n
          /\ (0 <= n)%Z
          /\ (n * batch_size self <= count self < (n + 1) * batch_size self)%Z).
Proof.
  intros Hr. apply reachable_count in Hr. split.
  - intros Hz. unfold __len__, floor_div. by rewrite Hz.
  - intros Hpos. exists (count self / batch_size self)%Z.
    split; [unfold __len__; by apply floor_div_pos|].
    split; [by apply Z.div_pos|].
    pose proof (Z.div_mod (count self) (batch_size self) ltac:(lia)) as Hdm.
    pose proof (Z.mod_pos_bound (count self) (batch_size self) Hpos) as Hmod.
    nia.
Qed.

Lemma dict_get_set (d : dict) (k v k' : string) :
  dict_get (dict_set d k v) k' = if String.eqb k k' then Ok v else dict_get d k'.
Proof.
  induction d as [|[k0 v0] d IH]; simpl.
  - done.
  - destruct (String.eqb_spec k0 k) as [->|Hne]; simpl.
    + by destruct (String.eqb k k').
    + rewrite IH. destruct (String.eqb_spec k0 k') as [->|Hne']; [|done].
      destruct (String.eqb_spec k k'); [congruence|done].
Qed.

Lemma fold_dict_set_get_other (kvs : list (string * string)) (d : dict) (k : string) :
  Forall (fun kv => fst kv <> k) kvs ->
  dict_get (fold_left (fun d kv => dict_set d (fst kv) (snd kv)) kvs d) k
  = dict_get d k.
Proof.
  revert d. induction kvs as [|[k0 v0] kvs IH]; intros d Hk; simpl; [done|].
  apply Forall_cons in Hk as [Hk0 Hk]. rewrite IH by done. simpl in Hk0.
  rewrite dict_get_set. destruct (String.eqb_spec k0 k); [congruence|done].
Qed.

Lemma dict_set_sub (d : dict) (k v : string) kv :
  kv ∈ dict_set d k v -> kv ∈ d \/ kv = (k, v).
Proof.
  induction d as [|[k1 v1] d IHd]; simpl.
  - intros ->%list_elem_of_singleton. by right.
  - destruct (String.eqb_spec k1 k) as [->|Hne].
    + intros [->|H]%elem_of_cons; [by right|]. left. by apply list_elem_of_further.
    + intros [->|H]%elem_of_cons; [left; apply list_elem_of_here|].
      destruct (IHd H) as [?|?]; [left; by apply list_elem_of_further|by right].
Qed.

Lemma fold_dict_set_sub (kvs : list (string * string)) (d : dict) kv :
  kv ∈ fold_left (fun d kv => dict_set d (fst kv) (snd kv)) kvs d ->
  kv ∈ d \/ kv ∈ kvs.
Proof.
  revert d. induction kvs as [|[k0 v0] kvs IH]; intros d H; [by left|].
  simpl in H. apply IH in H as [H|H]; [|right; by apply list_elem_of_further].
  apply dict_set_sub in H as [H| ->]; [by left|right; apply list_elem_of_here].
Qed.

Lemma pool_of_sub (file_list : list string) (k v : string) :
  (k, v) ∈ pool_of file_list -> v ∈ file_list /\ k = split0 "." v.
Proof.
  intros H. unfold pool_of, dict_of in H. apply fold_dict_set_sub in H as [H|H].
  - by apply elem_of_nil in H.
  - rewrite zip_prefix in H.
    apply (list_elem_of_fmap_1 (fun x => (split0 "." x, x))) in H as (x & [= -> ->] & Hx).
    done.
Qed.

(** X2: a look-up in the pool built from a listing gives, for the prefix of
    a listed file, the last listed file with that prefix; and the pool
    holds listed files only. *)
Theorem pool_of_lookup (l1 l2 : list string) (f : string) :
  Forall (fun g => split0 "." g <> split0 "." f) l2 ->
  dict_get (pool_of (l1 ++ f :: l2)) (split0 "." f) = Ok f
  /\ (forall k v, (k, v) ∈ pool_of (l1 ++ f :: l2) ->
        v ∈ l1 ++ f :: l2 /\ k = split0 "." v).
Proof.
  intros Hl2. split; [|intros k v; apply pool_of_sub].
  unfold pool_of, dict_of. rewrite zip_prefix, map_app, fold_left_app. simpl.
  rewrite fold_dict_set_get_other.
  - rewrite dict_get_set. by rewrite eqb_refl_true.
  - apply Forall_forall. intros kv.
    intros (x & -> & Hx)%(list_elem_of_fmap_1 (fun x => (split0 "." x, x))).
    simpl. by eapply Forall_forall in Hl2.
Qed.

Lemma dict_set_fresh (d : dict) (k v : string) :
  k ∉ keys d -> dict_set d k v = d ++ [(k, v)].
Proof.
  induction d as [|[k0 v0] d IH]; simpl; [done|].
  intros Hk. destruct (String.eqb_spec k0 k) as [->|Hne].
  - exfalso. apply Hk, elem_of_cons. by left.
  - rewrite IH; [done|]. intros H. apply Hk, elem_of_cons. by right.
Qed.

Lemma fold_dict_set_fresh (kvs : list (string * string)) (d : dict) :
  NoDup (keys d ++ keys kvs) ->
  fold_left (fun d kv => dict_set d (fst kv) (snd kv)) kvs d = d ++ kvs.
Proof.
  revert d. induction kvs as [|[k v] kvs IH]; intros d Hnd; simpl.
  - by rewrite app_nil_r.
  - simpl in Hnd. rewrite dict_set_fresh.
    + rewrite IH; [by rewrite <- app_assoc|].
      unfold keys in *. rewrite map_app. simpl. by rewrite <- app_assoc.
    + intros Hk. apply NoDup_app in Hnd as (_ & Hd & _).
      apply (Hd k Hk), elem_of_cons. by left.
Qed.

Lemma run_nonempty inputs (self : t) :
  (length inputs < length (files self))%nat -> files (run inputs self) <> [].
Proof.
  intros Hlt Hnil. pose proof (run_length inputs self ltac:(lia)) as Hl.
  rewrite Hnil in Hl. simpl in Hl. lia.
Qed.

(** X3: when the listed names have distinct prefixes, the pool is the
    listing itself, in order, keyed by prefix; it has [count] entries, so
    the pool does not run empty before [count] draws and is empty after
    exactly [count] of them. *)
Theorem distinct_prefixes_full_epoch dn bs cl cs cw ch (file_list : list string)
    (self0 : t) :
  NoDup (map (fun x => split0 "." x) file_list) ->
  __init__ dn bs cl cs cw ch (Ok file_list) = Ok self0 ->
  files self0 = map (fun x => (split0 "." x, x)) file_list
  /\ len (files self0) = count self0
  /\ (forall inputs, (length inputs < length file_list)%nat ->
        files (run inputs self0) <> [])
  /\ (forall inputs, length inputs = length file_list ->
        files (run inputs self0) = []).
Proof.
  intros Hnd [= <-]. simpl.
  assert (pool_of file_list = map (fun x => (split0 "." x, x)) file_list) as Hp.
  { unfold pool_of, dict_of. rewrite zip_prefix, fold_dict_set_fresh; [done|].
    simpl. unfold keys. rewrite map_map. simpl. done. }
  split; [done|]. split; [|split].
  - rewrite Hp. unfold len. by rewrite length_map.
  - intros inputs Hlt. apply run_nonempty. simpl. rewrite Hp, length_map. done.
  - intros inputs Hlen. apply length_zero_iff_nil. rewrite run_length; simpl;
      rewrite Hp, length_map; lia.
Qed.

(** ** Conservation of the files over draws *)

Lemma dict_get_del_Permutation (d : dict) (k v : string) :
  dict_get d k = Ok v -> values d ≡ₚ v :: values (dict_del d k).
Proof.
  induction d as [|[k0 v0] d IH]; simpl; [done|].
  destruct (String.eqb k0 k).
  - by intros [= ->].
  - intros H. simpl. rewrite (IH H). apply perm_swap.
Qed.

Lemma pick_Permutation (r : nat) (self : t) :
  used_files (snd (pick r self)) ++ values (files (snd (pick r self)))
  ≡ₚ used_files self ++ values (files self).
Proof.
  unfold pick. destruct (random_choice r (keys (files self))) as [key|e]; [|done].
  destruct (dict_get (files self) key) as [file|e] eqn:Hget; [|done].
  unfold dict_pop. rewrite Hget. simpl.
  rewrite (dict_get_del_Permutation _ _ _ Hget).
  rewrite <- app_assoc. simpl. done.
Qed.

Lemma pick_Raise (r : nat) (self : t) (e : exn) :
  fst (pick r self) = Raise e -> e = IndexError /\ files self = [].
Proof.
  destruct (files self) as [|kv d] eqn:Ef.
  - rewrite pick_empty by done. simpl. by intros [= <-].
  - destruct (pick_nonempty r self) as (key & file & _ & ->); [by rewrite Ef|]. done.
Qed.

Lemma draw_Permutation (file_list : list string) (r : nat) (self : t) :
  used_files self ++ values (files self) ≡ₚ values (pool_of file_list) ->
  used_files (snd (draw (Ok file_list) r self))
    ++ values (files (snd (draw (Ok file_list) r self)))
  ≡ₚ values (pool_of file_list).
Proof.
  intros Hinv. unfold draw. destruct (decide (files self = [])) as [Ef|Ef].
  - rewrite refill_empty by done. rewrite pick_Permutation. done.
  - rewrite refill_nonempty by done. by rewrite pick_Permutation.
Qed.

(** X4: while the directory listing stays the same, the record of used
    files and the pool together always hold exactly the files of the
    listing's pool, each once; so when the pool runs empty every one of
    them has been drawn exactly once since the last refill. *)
Theorem draws_conserve_files dn bs cl cs cw ch (file_list : list string)
    (self0 : t) (rs : list nat) :
  __init__ dn bs cl cs cw ch (Ok file_list) = Ok self0 ->
  let self := run (map (fun r => (Ok file_list, r)) rs) self0 in
  used_files self ++ values (files self) ≡ₚ values (pool_of file_list)
  /\ (files self = [] -> used_files self ≡ₚ values (pool_of file_list)).
Proof.
  intros [= <-]. simpl.
  match goal with |- context [run _ ?s] => set (s0 := s) end.
  assert (used_files s0 ++ values (files s0) ≡ₚ values (pool_of file_list)) as H0
    by done.
  clearbody s0. revert s0 H0. induction rs as [|r rs IH]; intros s0 H0; simpl.
  - split; [done|]. intros He. by rewrite He, app_nil_r in H0.
  - apply IH. by apply draw_Permutation.
Qed.

(** ** What a call of [__getitem__] leaves behind *)

Lemma reaches_trans (self0 self1 self2 : t) :
  reaches self0 self1 -> reaches self1 self2 -> reaches self0 self2.
Proof. intros H1 H2. induction H2; [done|]. by constructor. Qed.

(** X5: whether it returns or raises, [__getitem__] leaves an object whose
    pool holds distinct files, whose record of used files has no repeats
    and shares no file with the pool, and whose [__len__] is unchanged. *)
Theorem getitem_keeps_invariant env (self : t) (idx : Z) :
  reachable self ->
  let self' := snd (__getitem__ env self idx) in
  reachable self'
  /\ NoDup (values (files self'))
  /\ NoDup (used_files self')
  /\ (forall f, f ∈ used_files self' -> f ∉ values (files self'))
  /\ __len__ self' = __len__ self.
Proof.
  intros Hr. simpl. pose proof (getitem_reaches env self idx) as Hg.
  assert (reachable (snd (__getitem__ env self idx))) as Hr'.
  { destruct Hr as (dn & bs & cl & cs & cw & ch & listing & self0 & Hi & Hr).
    exists dn, bs, cl, cs, cw, ch, listing, self0. split; [done|].
    by eapply reaches_trans. }
  split; [done|]. destruct (reachable_inv _ Hr') as (Hk & Hkd & Hu & Hd).
  split; [by apply keyed_values_NoDup|]. split; [done|]. split; [done|].
  destruct (reaches_attributes _ _ Hg) as [Hc Hb].
  unfold __len__. by rewrite Hc, Hb.
Qed.

(** ** The loop of [__getitem__], further *)

Lemma for_range_state env (indices : list Z) Xy (self : t) Xy' self' :
  for_range env indices Xy self = (Ok Xy', self') ->
  self' = run (Batch.inputs_of env indices) self.
Proof.
  revert Xy self. induction indices as [|i indices IH]; intros Xy self; simpl.
  - by intros [= _ <-].
  - pose proof (body_state env i Xy self) as Hb.
    destruct (body env i Xy self) as [[Xy1|e] self1]; [|done].
    simpl in Hb. intros H. apply IH in H. unfold run in *. simpl. by rewrite <- Hb.
Qed.

(** What a run of the loop that returns has put into [X]. *)
Lemma for_range_images env (n : nat) :
  forall (k0 : nat) (X : list image) y (self : t) X' y' self',
    (k0 + n <= length X)%nat ->
    for_range env (map Z.of_nat (seq k0 n)) (X, y) self = (Ok (X', y'), self') ->
    length X' = length X
    /\ (forall k, (k < k0 \/ k0 + n <= k)%nat -> X' !! k = X !! k)
    /\ (forall i key file,
          drawn env (map Z.of_nat (seq k0 n)) self !! i = Some (key, file) ->
          exists img,
            load_image env (directory_name self) file
              (captcha_height self) (captcha_width self) = Ok img
            /\ X' !! (k0 + i)%nat = Some img).
Proof.
  induction n as [|n IH]; intros k0 X y self X' y' self' Hk; simpl.
  - intros [= <- <- <-]. split; [done|]. split; [done|].
    intros i key file Hi. by rewrite lookup_nil in Hi.
  - unfold body. rewrite Nat2Z.id.
    pose proof (draw_attributes (listdir_at env k0) (choice_at env k0) self) as Hattr.
    destruct (draw (listdir_at env k0) (choice_at env k0) self)
      as [[[key0 file0]|e] self1]; [|done].
    simpl in Hattr. destruct Hattr as (Hdn & _ & _ & _ & Hw & Hh & _).
    destruct (load_image env _ _ _ _) as [img|e] eqn:Himg; [|done].
    destruct (encode _ _ _ _) as [y1|e]; [|done].
    intros Hfor. apply IH in Hfor as (Hl & Hout & Hin);
      [|rewrite length_insert; lia].
    rewrite length_insert in Hl. split; [done|]. split.
    + intros k Hkk. rewrite Hout by lia. apply list_lookup_insert_ne. lia.
    + intros [|i] key file Hi; simpl in Hi.
      * injection Hi as -> ->. exists img. rewrite <- Hdn, <- Hh, <- Hw.
        split; [done|]. rewrite Nat.add_0_r, Hout by lia.
        apply list_lookup_insert_eq. lia.
      * destruct (Hin i key file Hi) as (img' & Hload & HX).
        exists img'. rewrite <- Hdn, <- Hh, <- Hw. split; [done|].
        by replace (k0 + S i)%nat with (S k0 + i)%nat by lia.
Qed.




(** A call of [__getitem__] that returns leaves the object as after the
    draws of the batch. *)
Lemma getitem_Ok_state env (self : t) (idx : Z) Xy self' :
  __getitem__ env self idx = (Ok Xy, self') ->
  self' = run (Batch.inputs env self) self.
Proof.
  unfold __getitem__. destruct (zeros4 _ _ _) as [X0|e]; [|done].
  destruct (mapM _ _) as [y0|e]; [|done]. apply for_range_state.
Qed.

(** X6: in a batch that [__getitem__] returns, [X] has [batch_size] entries
    and entry [k] is the loaded image of the [k]-th sample drawn; the
    object is left as after the batch's draws. *)
Theorem getitem_images env (self : t) (idx : Z) X y self' :
  __getitem__ env self idx = (Ok (X, y), self') ->
  length X = Z.to_nat (batch_size self)
  /\ length (batch env self) = Z.to_nat (batch_size self)
  /\ (forall k key file,
        batch env self !! k = Some (key, file) ->
        exists img,
          load_image env (directory_name self) file
            (captcha_height self) (captcha_width self) = Ok img
          /\ X !! k = Some img)
  /\ self' = run (Batch.inputs env self) self.
Proof.
  intros Hget.
  assert (fst (__getitem__ env self idx) = Ok (X, y)) as Hfst by (by rewrite Hget).
  destruct (getitem_rows env self idx X y Hfst) as (_ & _ & HR & _).
  unfold __getitem__ in Hget.
  destruct (zeros4 _ _ _) as [X0|e] eqn:HX; [|done].
  assert (length X0 = Z.to_nat (batch_size self)) as HX0.
  { unfold zeros4 in HX. destruct (_ || _)%bool; [done|].
    injection HX as <-. by rewrite length_replicate. }
  destruct (mapM _ _) as [y0|e]; [|done].
  pose proof (for_range_state _ _ _ _ _ _ Hget) as Hstate.
  unfold range in Hget.
  apply for_range_images in Hget as (Hl & _ & Hin); [|lia].
  split; [congruence|]. split; [done|]. split; [|done].
  intros k key file Hk. exact (Hin k key file Hk).
Qed.

(** Draws from a pool that has enough entries do not refill it. *)
Lemma drawn_no_refill env (indices : list Z) (self : t) :
  (length indices <= length (files self))%nat ->
  length (drawn env indices self) = length indices
  /\ used_files (run (Batch.inputs_of env indices) self)
     = used_files self ++ map snd (drawn env indices self)
  /\ Forall (fun kf => kf ∈ files self) (drawn env indices self).
Proof.
  revert self. induction indices as [|i indices IH]; intros self Hle; simpl.
  - split; [done|]. split; [by rewrite app_nil_r|constructor].
  - destruct (draw_nonempty (listdir_at env (Z.to_nat i))
                (choice_at env (Z.to_nat i)) self) as (key & file & Hin & Hd).
    { destruct (files self); [simpl in Hle; lia|done]. }
    unfold run. simpl. rewrite Hd. simpl.
    pose proof (dict_del_length (files self) key (keys_elem_of _ _ _ Hin)) as Hl.
    match goal with |- context [drawn env indices ?s] =>
      destruct (IH s) as (IH1 & IH2 & IH3); [simpl in *; lia|] end.
    split; [by rewrite IH1|]. split.
    + unfold run in IH2. rewrite IH2. simpl. by rewrite <- app_assoc.
    + constructor; [done|]. simpl in IH3.
      eapply Forall_impl; [exact IH3|]. intros kf Hkf. by apply (dict_del_sub _ key).
Qed.

(** X7: a batch returned from a pool that holds at least [batch_size]
    entries is drawn without a refill: its files are pool entries, no file
    occurs twice in it, the files are appended to the record of used files
    in the order drawn, and the pool shrinks by [batch_size]. *)
Theorem batch_without_refill env (self : t) (idx : Z) X y self' :
  reachable self ->
  (batch_size self <= len (files self))%Z ->
  __getitem__ env self idx = (Ok (X, y), self') ->
  NoDup (map snd (batch env self))
  /\ Forall (fun kf => kf ∈ files self) (batch env self)
  /\ used_files self' = used_files self ++ map snd (batch env self)
  /\ len (files self') = (len (files self) - batch_size self)%Z.
Proof.
  intros Hr Hle Hget.
  pose proof (getitem_Ok_state env self idx (X, y) self' Hget) as Hs.
  assert (0 <= batch_size self)%Z as Hbs.
  { unfold __getitem__ in Hget. destruct (zeros4 _ _ _) as [X0|e] eqn:HX0; [|done].
    by apply zeros4_Ok in HX0 as (? & _ & _). }
  assert (length (range (batch_size self)) <= length (files self))%nat as Hlen.
  { rewrite range_length. unfold len in Hle. lia. }
  destruct (drawn_no_refill env (range (batch_size self)) self Hlen)
    as (Hd1 & Hd2 & Hd3).
  fold (batch env self) in Hd1, Hd2, Hd3. fold (Batch.inputs env self) in Hd2.
  rewrite <- Hs in Hd2.
  assert (pool_inv self') as (_ & _ & Hu & _).
  { apply (reaches_inv self); [by apply reachable_inv|].
    replace self' with (snd (__getitem__ env self idx)) by (by rewrite Hget).
    apply getitem_reaches. }
  split; [|split; [done|split; [done|]]].
  - rewrite Hd2 in Hu. by apply NoDup_app in Hu as (_ & _ & Hu).
  - rewrite Hs. unfold len, Batch.inputs. rewrite run_length.
    + unfold Batch.inputs_of. rewrite length_map, range_length.
      rewrite range_length in Hlen. lia.
    + unfold Batch.inputs_of. by rewrite length_map.
Qed.

(** ** How [__getitem__] fails and when it returns *)

Lemma pool_of_nonempty (file_list : list string) :
  file_list <> [] -> pool_of file_list <> [].
Proof.
  destruct file_list as [|f l]; [done|]. intros _ Hp.
  unfold pool_of, dict_of in Hp. simpl in Hp.
  assert (split0 "." f ∈ keys (@nil (string * string))) as Hk.
  { rewrite <- Hp. apply fold_dict_set_key. simpl. apply list_elem_of_here. }
  by apply elem_of_nil in Hk.
Qed.

Lemma draw_Raise listing (r : nat) (self : t) (e : exn) :
  fst (draw listing r self) = Raise e ->
  files self = []
  /\ (listing = Raise e \/ (listing = Ok [] /\ e = IndexError)).
Proof.
  unfold draw. destruct (decide (files self = [])) as [Ef|Ef].
  - rewrite refill_empty by done. destruct listing as [file_list|e'].
    + intros [-> Hp]%pick_Raise. split; [done|]. right. split; [|done].
      simpl in Hp. destruct file_list as [|f l]; [done|].
      exfalso. by apply pool_of_nonempty in Hp.
    + simpl. intros [= ->]. split; [done|]. by left.
  - rewrite refill_nonempty by done. intros [_ Hp]%pick_Raise. done.
Qed.

Lemma body_Raise env (i : Z) Xy (self : t) (e : exn) :
  fst (body env i Xy self) = Raise e ->
  e = IndexError
  \/ listdir_at env (Z.to_nat i) = Raise e
  \/ exists f, load_image env (directory_name self) f
                 (captcha_height self) (captcha_width self) = Raise e.
Proof.
  unfold body. destruct Xy as [X y].
  pose proof (draw_attributes (listdir_at env (Z.to_nat i))
                (choice_at env (Z.to_nat i)) self) as Hattr.
  pose proof (draw_Raise (listdir_at env (Z.to_nat i))
                (choice_at env (Z.to_nat i)) self) as Hd.
  destruct (draw _ _ self) as [[[key file]|e'] self1]; simpl in *.
  - destruct Hattr as (Hdn & _ & _ & _ & Hw & Hh & _). rewrite Hdn, Hw, Hh.
    destruct (load_image env _ _ _ _) as [img|e'] eqn:Himg.
    + destruct (encode _ _ _ _) as [y1|e'] eqn:Henc; [done|].
      simpl. intros [= ->]. left. by apply encode_Raise in Henc.
    + simpl. intros [= ->]. right. right. by exists file.
  - intros [= ->]. destruct (Hd e eq_refl) as (_ & [H|[_ H]]); [by right; left|by left].
Qed.

Lemma for_range_Raise env (indices : list Z) Xy (self : t) (e : exn) :
  fst (for_range env indices Xy self) = Raise e ->
  e = IndexError
  \/ (exists i, listdir_at env i = Raise e)
  \/ exists f, load_image env (directory_name self) f
                 (captcha_height self) (captcha_width self) = Raise e.
Proof.
  revert Xy self. induction indices as [|i indices IH]; intros Xy self; simpl; [done|].
  pose proof (body_Raise env i Xy self) as Hb.
  pose proof (body_state env i Xy self) as Hs.
  pose proof (draw_attributes (listdir_at env (Z.to_nat i))
                (choice_at env (Z.to_nat i)) self) as Hattr.
  destruct (body env i Xy self) as [[Xy1|e'] self1]; simpl in *.
  - subst self1. destruct Hattr as (Hdn & _ & _ & _ & Hw & Hh & _).
    intros H. apply IH in H. by rewrite Hdn, Hw, Hh in H.
  - intros [= ->]. destruct (Hb e eq_refl) as [?|[?|?]]; [by left| |by right; right].
    right; left. by eexists.
Qed.

(** X8: for a negative batch size, height or width [__getitem__] raises
    [ValueError] before it draws and leaves the object as it was.  Once
    [X] and [y] are there, the loop over the batch raises only
    [IndexError], or what the directory listing or the loading of an
    image raised: the look-up and the pop on the pool never raise. *)
Theorem getitem_raises env (self : t) (idx : Z) :
  ((batch_size self < 0 \/ captcha_height self < 0 \/ captcha_width self < 0)%Z ->
     __getitem__ env self idx = (Raise ValueError, self))
  /\ (forall indices Xy e,
        fst (for_range env indices Xy self) = Raise e ->
        e = IndexError
        \/ (exists i, listdir_at env i = Raise e)
        \/ exists f, load_image env (directory_name self) f
                       (captcha_height self) (captcha_width self) = Raise e).
Proof.
  split.
  - intros Hneg. unfold __getitem__, zeros4.
    destruct (Z.ltb_spec (batch_size self) 0); [done|].
    destruct (Z.ltb_spec (captcha_height self) 0); [done|].
    destruct (Z.ltb_spec (captcha_width self) 0); [done|]. lia.
  - intros indices Xy e. apply for_range_Raise.
Qed.

(** X9: with an empty pool and an empty directory, a call for a batch of
    at least one sample raises [IndexError] (from [random.choice]) and
    leaves the pool and the record of used files empty. *)
Theorem getitem_empty_directory env (self : t) (idx : Z) :
  files self = [] ->
  listdir_at env 0 = Ok [] ->
  (0 < batch_size self)%Z ->
  (0 <= captcha_height self)%Z ->
  (0 <= captcha_width self)%Z ->
  __getitem__ env self idx
  = (Raise IndexError, with_files (with_used_files self []) []).
Proof.
  intros Hf Hl Hbs Hh Hw. unfold __getitem__.
  destruct (zeros4_nonneg (batch_size self) (captcha_height self)
              (captcha_width self)) as [X0 ->]; [lia|done|done|].
  rewrite zeros_Ok by (unfold len; lia). rewrite mapM_const.
  unfold range. destruct (Z.to_nat (batch_size self)) as [|n] eqn:E; [lia|].
  simpl. unfold body, draw. rewrite Nat2Z.id.
  rewrite Hl, refill_empty by done. by rewrite pick_empty.
Qed.

Lemma find_from_lookup (s : string) (ch : ascii) (pos : Z) :
  ch ∈ list_ascii_of_string s ->
  exists c : nat,
    find_from s ch pos = (pos + Z.of_nat c)%Z
    /\ list_ascii_of_string s !! c = Some ch
    /\ forall c', (c' < c)%nat -> list_ascii_of_string s !! c' <> Some ch.
Proof.
  revert pos. induction s as [|a s IH]; intros pos Hin; simpl in *.
  - by apply elem_of_nil in Hin.
  - destruct (Ascii.eqb_spec a ch) as [->|Hne].
    + exists 0%nat. split; [lia|]. split; [done|]. intros c' Hc'. lia.
    + apply elem_of_cons in Hin as [?|Hin]; [congruence|].
      destruct (IH (pos + 1)%Z Hin) as (c & Hf & Hc & Hfirst).
      exists (S c). split; [lia|]. split; [done|].
      intros [|c'] Hc'; simpl; [congruence|]. apply Hfirst. lia.
Qed.

Lemma find_range (s : string) (ch : ascii) :
  (-1 <= find s ch < Z.of_nat (length (list_ascii_of_string s)))%Z.
Proof.
  destruct (decide (ch ∈ list_ascii_of_string s)) as [Hin|Hin].
  - pose proof (find_from_elem_of s ch 0 Hin). unfold find. lia.
  - unfold find. rewrite find_from_not_elem_of by done.
    destruct (list_ascii_of_string s); simpl; lia.
Qed.

Lemma axis_index_total (C : nat) (c : Z) :
  (0 < C)%nat -> (-1 <= c < Z.of_nat C)%Z -> exists c', axis_index C c = Ok c'.
Proof.
  intros HC Hc. unfold axis_index.
  destruct (Z.leb_spec 0 c); destruct (Z.ltb_spec c (Z.of_nat C)); simpl;
    try (by eexists); try lia.
  destruct (Z.leb_spec (- Z.of_nat C) c); destruct (Z.ltb_spec c 0); simpl;
    try (by eexists); lia.
Qed.

(** The encoding loop returns when the label fits and the alphabet is not
    empty. *)
Lemma encode_total (symbols : string) (R C k : nat) (label : list ascii) :
  (k < R)%nat ->
  C = length (list_ascii_of_string symbols) ->
  (0 < C)%nat ->
  forall (j0 : nat) (y : list ndarray2),
    shaped R C y ->
    (j0 + length label <= length y)%nat ->
    exists y', encode symbols (Z.of_nat k) (enumerate_from (Z.of_nat j0) label) y = Ok y'.
Proof.
  intros Hk HC Hpos. induction label as [|ch label IH]; intros j0 y Hy Hlen; simpl.
  - by eexists.
  - rewrite Nat2Z.id. simpl in Hlen.
    destruct (lookup_lt_is_Some_2 y j0) as [a Ha]; [lia|].
    unfold getitem at 1. rewrite Ha. simpl.
    pose proof Hy as Hya. eapply Forall_lookup_1 in Hya as [Hla Hrows]; [|exact Ha].
    pose proof (set_row_item a R C k (find symbols ch) Hla Hrows Hk) as Hsr.
    destruct (axis_index_total C (find symbols ch) Hpos) as [c Hc].
    { rewrite HC. apply find_range. }
    rewrite Hc in Hsr. unfold bind in Hsr at 1.
    destruct (set_row a (Z.of_nat k) 0) as [a1|e1]; [|done]. simpl. rewrite Hsr. simpl.
    replace (Z.of_nat j0 + 1)%Z with (Z.of_nat (S j0)) by lia.
    apply IH; [by apply shaped_insert|]. rewrite length_insert. lia.
Qed.

(** A draw returns when the pool is not empty or the listing is not, and
    keeps short labels short. *)
Lemma draw_total (L : nat) (file_list : list string) (r : nat) (self : t) :
  file_list <> [] ->
  Forall (fun f => (length (label_of (split0 "." f)) <= L)%nat) file_list ->
  Forall (fun kv => (length (label_of (fst kv)) <= L)%nat) (files self) ->
  exists key file self',
    draw (Ok file_list) r self = (Ok (key, file), self')
    /\ (length (label_of key) <= L)%nat
    /\ Forall (fun kv => (length (label_of (fst kv)) <= L)%nat) (files self').
Proof.
  intros Hne Hfl Hpool. unfold draw.
  destruct (decide (files self = [])) as [Ef|Ef].
  - rewrite refill_empty by done.
    match goal with |- context [pick r ?s] =>
      destruct (pick_nonempty r s) as (key & file & Hin & ->) end.
    { simpl. by apply pool_of_nonempty. }
    simpl in *. exists key, file. eexists. split; [done|].
    assert (Forall (fun kv => (length (label_of (fst kv)) <= L)%nat)
              (pool_of file_list)) as Hp.
    { apply Forall_forall. intros [k v] [Hv ->]%pool_of_sub. simpl.
      by eapply Forall_forall in Hfl. }
    split; [by eapply Forall_forall in Hp; [|exact Hin]|].
    simpl. by apply dict_del_Forall.
  - rewrite refill_nonempty by done.
    destruct (pick_nonempty r self Ef) as (key & file & Hin & ->).
    exists key, file. eexists. split; [done|].
    split; [by eapply Forall_forall in Hpool; [|exact Hin]|].
    simpl. by apply dict_del_Forall.
Qed.

Lemma for_range_total env (R C L : nat) (syms dn : string) (h w : Z) (n : nat) :
  C = length (list_ascii_of_string syms) ->
  (0 < C)%nat ->
  (forall f, exists img, load_image env dn f h w = Ok img) ->
  (forall i, exists file_list,
      listdir_at env i = Ok file_list /\ file_list <> []
      /\ Forall (fun f => (length (label_of (split0 "." f)) <= L)%nat) file_list) ->
  forall (k0 : nat) X (y : list ndarray2) (self : t),
    captcha_symbols self = syms ->
    directory_name self = dn ->
    captcha_height self = h ->
    captcha_width self = w ->
    Forall (fun kv => (length (label_of (fst kv)) <= L)%nat) (files self) ->
    shaped R C y ->
    length y = L ->
    (k0 + n <= R)%nat ->
    exists X' y' self',
      for_range env (map Z.of_nat (seq k0 n)) (X, y) self = (Ok (X', y'), self').
Proof.
  intros HC Hpos Hload Hlist. induction n as [|n IH];
    intros k0 X y self Hsyms Hdn Hh Hw Hpool Hy Hlen Hk; simpl.
  - by do 3 eexists.
  - unfold body. rewrite Nat2Z.id.
    destruct (Hlist k0) as (file_list & -> & Hne & Hfl).
    pose proof (draw_attributes (Ok file_list) (choice_at env k0) self) as Hattr.
    destruct (draw_total L file_list (choice_at env k0) self Hne Hfl Hpool)
      as (key & file & self1 & Hd & Hfit & Hpool1).
    rewrite Hd in *. simpl in Hattr.
    destruct Hattr as (Hdn1 & _ & _ & Hsyms1 & Hw1 & Hh1 & _).
    rewrite Hdn1, Hh1, Hw1, Hsyms1, Hdn, Hh, Hw, Hsyms.
    destruct (Hload file) as [img ->].
    destruct (encode_total syms R C k0 (label_of key) ltac:(lia) HC Hpos 0%nat y Hy)
      as [y1 Henc]; [simpl; lia|].
    change (enumerate (label_of key)) with (enumerate_from (Z.of_nat 0) (label_of key)).
    rewrite Henc.
    apply (encode_Ok syms R C k0 (label_of key)) in Henc as (Hs1 & Hl1 & _);
      [|lia|done].
    apply IH; try congruence; try done. lia.
Qed.

(** X10: once [X], of [batch_size] entries, and the zero label arrays are
    there, the loop over the batch returns when the alphabet is not empty, every image loads,
    every listing is non-empty, and every label in the pool and in the
    listings has at most [captcha_length] characters. *)
Theorem getitem_loop_returns env (self : t) (X : list image) :
  length X = Z.to_nat (batch_size self) ->
  alphabet self <> [] ->
  (forall f, exists img,
      load_image env (directory_name self) f
        (captcha_height self) (captcha_width self) = Ok img) ->
  (forall i, exists file_list,
      listdir_at env i = Ok file_list /\ file_list <> []
      /\ Forall (fun f => Batch.fits self (split0 "." f)) file_list) ->
  Forall (fun kv => Batch.fits self (fst kv)) (files self) ->
  exists X' y' self',
    for_range env (range (batch_size self))
      (X, replicate (Z.to_nat (captcha_length self))
            (replicate (Z.to_nat (batch_size self))
               (replicate (length (alphabet self)) 0%Z)))
      self
    = (Ok (X', y'), self')
    /\ length (batch env self) = Z.to_nat (batch_size self)
    /\ self' = run (Batch.inputs env self) self.
Proof.
  intros _ Ha Hload Hlist Hpool. unfold range.
  destruct (for_range_total env (Z.to_nat (batch_size self))
              (length (list_ascii_of_string (captcha_symbols self)))
              (Z.to_nat (captcha_length self)) (captcha_symbols self)
              (directory_name self) (captcha_height self) (captcha_width self)
              (Z.to_nat (batch_size self)) eq_refl) with (k0 := 0%nat) (X := X)
              (y := replicate (Z.to_nat (captcha_length self))
                      (replicate (Z.to_nat (batch_size self))
                         (replicate (length (alphabet self)) 0%Z)))
              (self := self)
    as (X' & y' & self' & Hfor); try done.
  - unfold alphabet in Ha. destruct (list_ascii_of_string _); [done|simpl; lia].
  - apply shaped_zeros.
  - by rewrite length_replicate.
  - exists X', y', self'. split; [done|]. split.
    + apply (for_range_Ok env (Z.to_nat (batch_size self))
               (length (alphabet self)) (captcha_symbols self)) in Hfor
        as (_ & _ & Hd & _); [done|done|apply shaped_zeros|lia].
    + by apply for_range_state in Hfor.
Qed.

(** X11: in a batch that [__getitem__] returns, a label shorter than
    [captcha_length] leaves the rows of its missing positions at zero, so
    those rows are not one-hot. *)
Theorem short_label_rows_zero env (self : t) (idx : Z) X (y : list ndarray2)
    (k j : nat) (key file : string) :
  fst (__getitem__ env self idx) = Ok (X, y) ->
  batch env self !! k = Some (key, file) ->
  (length (label_of key) <= j)%nat ->
  (j < Z.to_nat (captcha_length self))%nat ->
  cell y j k = Some (replicate (length (alphabet self)) 0%Z)
  /\ row_sum (replicate (length (alphabet self)) 0%Z) = 0%Z.
Proof.
  intros Hget Hb Hshort Hj.
  destruct (getitem_rows env self idx X y Hget) as (_ & _ & _ & Hrows).
  destruct (Hrows k key file Hb) as [_ Hcells]. specialize (Hcells j Hj).
  rewrite (lookup_ge_None_2 (label_of key) j) in Hcells by done.
  split; [done|apply row_sum_zeros].
Qed.

(** X12: in a batch that [__getitem__] returns, the row of a label character
    that is in the alphabet has its one at the first index of that
    character in the alphabet and zeros elsewhere: the character can be
    read back from the row. *)
Theorem label_round_trip env (self : t) (idx : Z) X (y : list ndarray2)
    (k j : nat) (key file : string) (ch : ascii) :
  fst (__getitem__ env self idx) = Ok (X, y) ->
  batch env self !! k = Some (key, file) ->
  label_of key !! j = Some ch ->
  ch ∈ alphabet self ->
  exists (c : nat) (row : list Z),
    cell y j k = Some row
    /\ alphabet self !! c = Some ch
    /\ (forall c', (c' < c)%nat -> alphabet self !! c' <> Some ch)
    /\ row !! c = Some 1%Z
    /\ (forall c', c' <> c -> (c' < length (alphabet self))%nat -> row !! c' = Some 0%Z).
Proof.
  intros Hget Hb Hch Hin.
  destruct (getitem_rows env self idx X y Hget) as (_ & _ & _ & Hrows).
  destruct (Hrows k key file Hb) as [Hlen Hcells].
  apply lookup_lt_Some in Hch as Hj. specialize (Hcells j ltac:(lia)).
  rewrite Hch in Hcells. destruct Hcells as (c & Hc & Hcell).
  destruct (find_from_lookup (captcha_symbols self) ch 0 Hin) as (c0 & Hf & Hc0 & Hfirst).
  fold (find (captcha_symbols self) ch) in Hf. rewrite Hf in Hc.
  apply axis_index_Ok in Hc as (Hlt & Hpos & _). specialize (Hpos ltac:(lia)).
  assert (c = c0) as -> by lia.
  exists c0, (one_hot (length (alphabet self)) c0). split; [done|].
  split; [done|]. split; [done|]. unfold one_hot. split.
  - apply list_lookup_insert_eq. by rewrite length_replicate.
  - intros c' Hne Hc'. rewrite list_lookup_insert_ne by done.
    by apply lookup_replicate_2.
Qed.

(** ** The trunk of the model *)

Lemma forward_layers_Call (l : layer) (x : tensor) :
  Trunk.forward_layers (Call l x) = Trunk.forward_layers x ++ [l].
Proof. done. Qed.

Lemma forward_layers_units (i : Z) (js : list Z) (x : tensor) :
  Trunk.forward_layers (fold_left (fun x _ => conv_unit i x) js x)
  = Trunk.forward_layers x
    ++ concat (replicate (length js)
                 [Conv2D (32 * 2 ^ Z.min i 3) 3 "same" "he_uniform";
                  BatchNormalization; Activation "relu"]).
Proof.
  revert x. induction js as [|j js IH]; intros x; simpl.
  - by rewrite app_nil_r.
  - rewrite IH. unfold conv_unit. rewrite !forward_layers_Call.
    by rewrite <- !app_assoc.
Qed.

Lemma forward_layers_module (x : tensor) (i m : Z) :
  Trunk.forward_layers (conv_module x (i, m))
  = Trunk.forward_layers x ++ Trunk.module_layers i (Z.to_nat m).
Proof.
  unfold conv_module. rewrite forward_layers_Call, forward_layers_units.
  rewrite range_length. unfold Trunk.module_layers. by rewrite <- app_assoc.
Qed.

Lemma forward_layers_modules (m : Z) (D n0 : nat) (x : tensor) :
  Trunk.forward_layers
    (fold_left conv_module (enumerate_from (Z.of_nat n0) (replicate D m)) x)
  = Trunk.forward_layers x
    ++ concat (map (fun i => Trunk.module_layers i (Z.to_nat m))
                 (map Z.of_nat (seq n0 D))).
Proof.
  revert n0 x. induction D as [|D IH]; intros n0 x.
  - simpl. by rewrite app_nil_r.
  - cbn [replicate enumerate_from fold_left seq map concat].
    replace (Z.of_nat n0 + 1)%Z with (Z.of_nat (S n0)) by lia.
    rewrite IH, forward_layers_module. by rewrite <- app_assoc.
Qed.

(** C8: for a positive length [N] and a positive alphabet size [S], the
    graph [create_model] asks for has [N] outputs; output [i] is a
    softmax [Dense] layer of width [S] named [char_<i+1>], each called on
    the one trunk; the names differ.  The trunk is, from input to output,
    [model_depth] modules of [module_size] convolutions, normalisations
    and activations closed by a pooling, then [Flatten]; it has no
    [Dense] layer. *)
Theorem create_model_heads (N S : Z) (shape : list Z) (depth msize : Z) :
  (0 < N)%Z ->
  (0 < S)%Z ->
  let m := create_model N S shape depth msize in
  let x := trunk shape depth msize in
  inputs m = Input shape
  /\ Python.len (outputs m) = N
  /\ (forall i : nat, (i < Z.to_nat N)%nat ->
        outputs m !! i =
          Some (Call (Dense S "softmax" ("char_" ++ format_d (Z.of_nat i + 1))%string) x))
  /\ Trunk.forward_layers x
     = concat (map (fun i => Trunk.module_layers i (Z.to_nat msize))
                 (Python.range depth))
       ++ [Flatten]
  /\ ((0 < depth)%Z -> (0 < msize)%Z ->
        Conv2D 32 3 "same" "he_uniform" ∈ Trunk.forward_layers x)
  /\ existsb is_Dense (layers_of x) = false
  /\ NoDup (omap head_name (outputs m)).
Proof.
  intros HN HS. simpl.
  assert (Trunk.forward_layers (trunk shape depth msize)
          = concat (map (fun i => Trunk.module_layers i (Z.to_nat msize))
                      (Python.range depth)) ++ [Flatten]) as Htrunk.
  { unfold trunk. rewrite forward_layers_Call. f_equal.
    unfold enumerate, list_mul.
    by rewrite (forward_layers_modules msize (Z.to_nat depth) 0). }
  split; [reflexivity|]. split; [|split; [|split; [|split; [|split]]]].
  - unfold len. rewrite length_map, range_length. lia.
  - intros i Hi.
    change (map ?f ?l) with (fmap (M:=list) f l).
    by rewrite list_lookup_fmap, range_lookup.
  - exact Htrunk.
  - intros Hd Hm. rewrite Htrunk. unfold Python.range.
    destruct (Z.to_nat depth) as [|D] eqn:ED; [lia|].
    destruct (Z.to_nat msize) as [|M] eqn:EM; [lia|].
    simpl. apply list_elem_of_here.
  - unfold trunk. simpl. apply conv_modules_no_Dense.
  - pose proof (range_NoDup N) as Hnd.
    induction (range N) as [|i l IH]; simpl; [constructor|].
    apply NoDup_cons in Hnd as [Hi Hnd]. apply NoDup_cons. split; [|by apply IH].
    intros Hin. apply Hi. clear -Hin.
    induction l as [|j l IH]; simpl in Hin; [by apply elem_of_nil in Hin|].
    apply elem_of_cons in Hin as [Heq|Hin].
    + injection Heq as Heq. apply format_d_inj in Heq.
      assert (i = j) as -> by lia. apply elem_of_cons; by left.
    + apply elem_of_cons; right; by apply IH.
Qed.

Lemma create_model_heads_witness :
  inputs (create_model 4 36 [64; 128; 3]%Z 5 2) = Input [64; 128; 3]%Z
  /\ Python.len (outputs (create_model 4 36 [64; 128; 3]%Z 5 2)) = 4%Z.
Proof.
  destruct (create_model_heads 4 36 [64; 128; 3]%Z 5 2) as (H1 & H2 & _);
    [lia|lia|]. split; [exact H1|exact H2].
Defined.

(** X13: from input to output the trunk is [model_depth] modules and a
    [Flatten]; module [i] is [module_size] times a 3x3 same-padded
    [Conv2D] of [32 * 2^min(i, 3)] filters, a [BatchNormalization] and a
    relu, then one [MaxPooling2D(2)].  A depth or size that is not
    positive gives no module or no convolution. *)
Theorem trunk_layers (shape : list Z) (depth msize : Z) :
  Trunk.forward_layers (trunk shape depth msize)
  = concat (map (fun i => Trunk.module_layers i (Z.to_nat msize))
              (Python.range depth))
    ++ [Flatten].
Proof.
  unfold trunk. rewrite forward_layers_Call. f_equal.
  unfold enumerate, list_mul.
  by rewrite (forward_layers_modules msize (Z.to_nat depth) 0).
Qed.

Lemma module_layers_filters (i : Z) (m : nat) :
  omap Trunk.filters_of (Trunk.module_layers i m)
  = replicate m (32 * 2 ^ Z.min i 3)%Z.
Proof.
  unfold Trunk.module_layers. rewrite omap_app. simpl. rewrite app_nil_r.
  induction m as [|m IH]; [done|].
  cbn [replicate concat]. rewrite omap_app, IH. done.
Qed.

Lemma module_layers_poolings (i : Z) (m : nat) :
  filter (fun l => Trunk.is_MaxPooling2D l) (Trunk.module_layers i m)
  = [MaxPooling2D 2].
Proof.
  unfold Trunk.module_layers. rewrite filter_app.
  assert (filter (fun l => Trunk.is_MaxPooling2D l)
            (concat (replicate m
               [Conv2D (32 * 2 ^ Z.min i 3) 3 "same" "he_uniform";
                BatchNormalization; Activation "relu"])) = []) as ->.
  { induction m as [|m IH]; [done|]. cbn [replicate concat].
    rewrite filter_app, IH. done. }
  done.
Qed.

(** X14: every convolution of the trunk has 32, 64, 128 or 256 filters;
    there are [model_depth * module_size] convolutions and [model_depth]
    poolings. *)
Theorem trunk_filters (shape : list Z) (depth msize : Z) :
  let layers := Trunk.forward_layers (trunk shape depth msize) in
  Forall (fun f => f ∈ [32; 64; 128; 256]%Z) (omap Trunk.filters_of layers)
  /\ length (omap Trunk.filters_of layers) = (Z.to_nat depth * Z.to_nat msize)%nat
  /\ length (filter (fun l => Trunk.is_MaxPooling2D l) layers) = Z.to_nat depth.
Proof.
  simpl. unfold trunk, enumerate, list_mul.
  rewrite forward_layers_Call, (forward_layers_modules msize (Z.to_nat depth) 0).
  change (Trunk.forward_layers (Input shape)) with (@nil layer). simpl app.
  rewrite omap_app, filter_app, !length_app. simpl.
  rewrite app_nil_r, !Nat.add_0_r.
  generalize 0%nat as n0.
  induction (Z.to_nat depth) as [|D IH]; intros n0.
  - split; [constructor|done].
  - destruct (IH (S n0)) as (IH1 & IH2 & IH3).
    cbn [seq map concat].
    rewrite omap_app, filter_app, !length_app, module_layers_filters,
      module_layers_poolings, length_replicate, IH2, IH3.
    split; [|split; [lia|done]]. apply Forall_app. split; [|done].
    apply Forall_replicate.
    assert (Z.min (Z.of_nat n0) 3 = 0 \/ Z.min (Z.of_nat n0) 3 = 1
            \/ Z.min (Z.of_nat n0) 3 = 2 \/ Z.min (Z.of_nat n0) 3 = 3)%Z
      as [-> | [-> | [-> | ->]]] by lia; simpl; repeat constructor.
Qed.

(** ** The driver, further *)

(** X15: [main] saves weights only in the handler of the interrupt: a
    [save_weights] call in its trace is for [<output-model-name>_resume.h5]
    and follows a call of the training loop that raised
    [KeyboardInterrupt]. *)
Theorem main_saves_only_on_interrupt be args (path : string) :
  In (save_weights path) (fst (main be args)) ->
  exists x v ep cbs name,
    Args.output_model_name args = Some name
    /\ path = (name ++ "_resume.h5")%string
    /\ In (fit x v ep cbs) (fst (main be args))
    /\ raises be (fit x v ep cbs) = Some KeyboardInterrupt.
Proof.
  destruct args as [w h l b td vd o im ep' s].
  unfold main; simpl. intros Hin.
  destruct w, h, l, b, ep', td, vd, o, s; try not_reached Hin.
  unfold train, io_bind, perform, observe, try_except_KeyboardInterrupt, say in *.
  destruct (readline_strip be _) as [syms|]; [|not_reached Hin].
  destruct (raises be (build _)); [not_reached Hin|].
  destruct im as [p|]; [destruct (raises be (load_weights p))|];
    try not_reached Hin.
  all: destruct (raises be (compile _ _ _)); [not_reached Hin|].
  all: destruct (raises be summary); [not_reached Hin|].
  all: destruct (ImageSequence.__init__ _ _ _ _ _ _ (os_listdir be s0))
         as [training_data|]; [|not_reached Hin].
  all: destruct (ImageSequence.__init__ _ _ _ _ _ _ (os_listdir be s1))
         as [validation_data|]; [|not_reached Hin].
  all: destruct (raises be (write_json _)); [not_reached Hin|].
  all: destruct (raises be (fit training_data _ _ _)) as [e|] eqn:Hfit;
    [|not_reached Hin].
  all: destruct e; try not_reached Hin.
  all: exists training_data, validation_data, z3,
         [EarlyStopping 3; ModelCheckpoint (s2 ++ ".keras")%string false], s2.
  all: split; [reflexivity|]; split;
         [destruct (raises be (save_weights _)); simpl in Hin; intuition congruence|].
  all: split; [|exact Hfit].
  all: destruct (raises be (save_weights _)); simpl; intuition.
Qed.

(** X16: when [main] calls the training loop, every required flag was
    given, the alphabet was read from the symbols file, the model built
    before has one class per alphabet character and input shape
    (height, width, 3), the two feeders are those [__init__] builds from
    the listings of the two dataset directories with the same batch size,
    length, alphabet, width and height, and the architecture file
    [<output-model-name>.json] was written before. *)
Theorem main_fit_arguments be args x v ep cbs :
  In (fit x v ep cbs) (fst (main be args)) ->
  exists width height length batch_size train_dataset validate_dataset name symbols
         captcha_symbols,
    Args.width args = Some width
    /\ Args.height args = Some height
    /\ Args.length args = Some length
    /\ Args.batch_size args = Some batch_size
    /\ Args.epochs args = Some ep
    /\ Args.train_dataset args = Some train_dataset
    /\ Args.validate_dataset args = Some validate_dataset
    /\ Args.output_model_name args = Some name
    /\ Args.symbols args = Some symbols
    /\ readline_strip be symbols = Ok captcha_symbols
    /\ ImageSequence.__init__ train_dataset batch_size length captcha_symbols
         width height (os_listdir be train_dataset) = Ok x
    /\ ImageSequence.__init__ validate_dataset batch_size length captcha_symbols
         width height (os_listdir be validate_dataset) = Ok v
    /\ cbs = [EarlyStopping 3; ModelCheckpoint (name ++ ".keras")%string false]
    /\ exists before after,
         fst (main be args) = before ++ fit x v ep cbs :: after
         /\ In (build (create_model_default length
                         (len (list_ascii_of_string captcha_symbols))
                         [height; width; 3%Z])) before
         /\ In (write_json (name ++ ".json")%string) before
         /\ existsb is_fit before = false.
Proof.
  destruct args as [w h l b td vd o im ep' s].
  unfold main; simpl. intros Hin.
  destruct w, h, l, b, ep', td, vd, o, s; try not_reached Hin.
  unfold train, io_bind, perform, observe, try_except_KeyboardInterrupt, say in *.
  destruct (readline_strip be _) as [syms|] eqn:Hsyms; [|not_reached Hin].
  destruct (raises be (build _)); [not_reached Hin|].
  destruct im as [p|]; [destruct (raises be (load_weights p))|];
    try not_reached Hin.
  all: destruct (raises be (compile _ _ _)); [not_reached Hin|].
  all: destruct (raises be summary); [not_reached Hin|].
  all: destruct (ImageSequence.__init__ _ _ _ _ _ _ (os_listdir be s0))
         as [training_data|] eqn:Ht; [|not_reached Hin].
  all: destruct (ImageSequence.__init__ _ _ _ _ _ _ (os_listdir be s1))
         as [validation_data|] eqn:Hv; [|not_reached Hin].
  all: destruct (raises be (write_json _)); [not_reached Hin|].
  all: assert (fit x v ep cbs = fit training_data validation_data z3
            [EarlyStopping 3; ModelCheckpoint (s2 ++ ".keras") false]) as Heq
         by (destruct (raises be (fit training_data _ _ _)) as [[]|];
             [..|destruct (raises be (save_weights _))| | |];
             simpl in Hin; intuition congruence).
  all: injection Heq as -> -> -> ->.
  all: exists z, z0, z1, z2, s0, s1, s2, s, syms.
  all: repeat (split; [reflexivity || assumption|]).
  1: exists [open_symbols s;
             build (create_model_default z1 (len (list_ascii_of_string syms))
                      [z0; z; 3%Z]);
             load_weights p;
             compile "categorical_crossentropy" (Adam (1 # 1000) true)
               (map (fun _ => CategoricalAccuracy) (Python.range z1));
             summary; listdir s0; listdir s1; write_json (s2 ++ ".json")%string].
  2: exists [open_symbols s;
             build (create_model_default z1 (len (list_ascii_of_string syms))
                      [z0; z; 3%Z]);
             compile "categorical_crossentropy" (Adam (1 # 1000) true)
               (map (fun _ => CategoricalAccuracy) (Python.range z1));
             summary; listdir s0; listdir s1; write_json (s2 ++ ".json")%string].
  all: destruct (raises be (fit training_data _ _ _)) as [[]|];
         [..|destruct (raises be (save_weights _))| | |].
  all: eexists; split; [simpl; reflexivity|].
  all: split; [simpl; tauto|]; split; [simpl; tauto|reflexivity].
Qed.

(** X17: [main] returns normally only after it called the training loop,
    and then either that call returned and no weights were saved by
    [main], or it raised [KeyboardInterrupt] and the call of
    [save_weights] on [<output-model-name>_resume.h5] was made and did not
    raise. *)
Theorem main_returns_only_after_fit be args :
  snd (main be args) = Ok tt ->
  exists x v ep cbs name,
    Args.output_model_name args = Some name
    /\ In (fit x v ep cbs) (fst (main be args))
    /\ ((raises be (fit x v ep cbs) = None
         /\ existsb is_save_weights (fst (main be args)) = false)
        \/ (raises be (fit x v ep cbs) = Some KeyboardInterrupt
            /\ In (save_weights (name ++ "_resume.h5")%string) (fst (main be args))
            /\ raises be (save_weights (name ++ "_resume.h5")%string) = None)).
Proof.
  destruct args as [w h l b td vd o im ep' s].
  unfold main; simpl. intros Hok.
  destruct w, h, l, b, ep', td, vd, o, s; try discriminate.
  unfold train, io_bind, perform, observe, try_except_KeyboardInterrupt, say in *.
  destruct (readline_strip be _) as [syms|]; [|discriminate].
  destruct (raises be (build _)); [discriminate|].
  destruct im as [p|]; [destruct (raises be (load_weights p))|];
    try discriminate.
  all: destruct (raises be (compile _ _ _)); [discriminate|].
  all: destruct (raises be summary); [discriminate|].
  all: destruct (ImageSequence.__init__ _ _ _ _ _ _ (os_listdir be s0))
         as [training_data|]; [|discriminate].
  all: destruct (ImageSequence.__init__ _ _ _ _ _ _ (os_listdir be s1))
         as [validation_data|]; [|discriminate].
  all: destruct (raises be (write_json _)); [discriminate|].
  all: exists training_data, validation_data, z3,
         [EarlyStopping 3; ModelCheckpoint (s2 ++ ".keras")%string false], s2.
  all: split; [reflexivity|].
  all: destruct (raises be (fit training_data _ _ _)) as [e|] eqn:Hfit.
  all: try (destruct e; try discriminate).
  all: try (destruct (raises be (save_weights _)) eqn:Hsave; try discriminate).
  all: split; [simpl; tauto|].
  all: first [ left; split; reflexivity
             | right; split; [reflexivity|]; split; [simpl; tauto|reflexivity] ].
Qed.

(** ** The further statements at concrete inputs *)

Lemma pool_of_lookup_witness :
  dict_get (pool_of (["ab_0.png"] ++ "ab_0.jpg" :: [])) (split0 "." "ab_0.jpg")
  = Ok "ab_0.jpg".
Proof.
  apply (pool_of_lookup ["ab_0.png"] [] "ab_0.jpg"). constructor.
Defined.

Lemma distinct_prefixes_full_epoch_witness :
  files Sample.feeder = map (fun x => (split0 "." x, x)) Sample.two_files
  /\ len (files Sample.feeder) = count Sample.feeder.
Proof.
  destruct (distinct_prefixes_full_epoch "data" 2 2 "ab" 1 1 Sample.two_files
              Sample.feeder) as (H1 & H2 & _).
  - vm_compute. repeat constructor.
    + intros H. apply elem_of_cons in H as [H|H]; [discriminate|].
      by apply elem_of_nil in H.
    + intros H. by apply elem_of_nil in H.
  - reflexivity.
  - split; [exact H1|exact H2].
Defined.

Lemma draws_conserve_files_witness :
  let self := run (map (fun r => (Ok Sample.two_files, r)) [0; 0; 0]%nat)
                Sample.feeder in
  used_files self ++ values (files self) ≡ₚ values (pool_of Sample.two_files)
  /\ (files self = [] -> used_files self ≡ₚ values (pool_of Sample.two_files)).
Proof.
  apply (draws_conserve_files "data" 2 2 "ab" 1 1 Sample.two_files Sample.feeder
           [0; 0; 0]%nat).
  reflexivity.
Defined.

Lemma sample_feeder_reachable : reachable Sample.feeder.
Proof.
  exists "data", 2%Z, 2%Z, "ab", 1%Z, 1%Z, (Ok Sample.two_files), Sample.feeder.
  split; [reflexivity|constructor].
Defined.

Lemma len_zero_or_bounds_witness :
  (batch_size Sample.feeder = 0%Z -> __len__ Sample.feeder = Raise ZeroDivisionError)
  /\ ((0 < batch_size Sample.feeder)%Z ->
        exists n, __len__ Sample.feeder = Ok n
          /\ (0 <= n)%Z
          /\ (n * batch_size Sample.feeder <= count Sample.feeder
              < (n + 1) * batch_size Sample.feeder)%Z).
Proof.
  apply (len_zero_or_bounds Sample.feeder). exact sample_feeder_reachable.
Defined.

Lemma getitem_keeps_invariant_witness :
  let self' := snd (__getitem__ Sample.env Sample.feeder 0) in
  reachable self'
  /\ NoDup (values (files self'))
  /\ NoDup (used_files self')
  /\ (forall f, f ∈ used_files self' -> f ∉ values (files self'))
  /\ __len__ self' = __len__ Sample.feeder.
Proof.
  apply (getitem_keeps_invariant Sample.env Sample.feeder 0).
  exact sample_feeder_reachable.
Defined.

Lemma getitem_images_witness :
  length [Sample.pixel; Sample.pixel] = Z.to_nat (batch_size Sample.feeder)
  /\ length (batch Sample.env Sample.feeder) = Z.to_nat (batch_size Sample.feeder)
  /\ (forall k key file,
        batch Sample.env Sample.feeder !! k = Some (key, file) ->
        exists img,
          load_image Sample.env (directory_name Sample.feeder) file
            (captcha_height Sample.feeder) (captcha_width Sample.feeder) = Ok img
          /\ [Sample.pixel; Sample.pixel] !! k = Some img)
  /\ snd (__getitem__ Sample.env Sample.feeder 0)
     = run (Batch.inputs Sample.env Sample.feeder) Sample.feeder.
Proof.
  apply (getitem_images Sample.env Sample.feeder 0 [Sample.pixel; Sample.pixel]
           Sample2.labels).
  reflexivity.
Defined.

Lemma batch_without_refill_witness :
  NoDup (map snd (batch Sample.env Sample.feeder))
  /\ Forall (fun kf => kf ∈ files Sample.feeder) (batch Sample.env Sample.feeder)
  /\ used_files (snd (__getitem__ Sample.env Sample.feeder 0))
     = used_files Sample.feeder ++ map snd (batch Sample.env Sample.feeder)
  /\ len (files (snd (__getitem__ Sample.env Sample.feeder 0)))
     = (len (files Sample.feeder) - batch_size Sample.feeder)%Z.
Proof.
  apply (batch_without_refill Sample.env Sample.feeder 0
           [Sample.pixel; Sample.pixel] Sample2.labels).
  - exact sample_feeder_reachable.
  - vm_compute. discriminate.
  - reflexivity.
Defined.


Lemma getitem_empty_directory_witness :
  __getitem__ Sample2.empty_env Sample2.empty_feeder 0
  = (Raise IndexError,
     with_files (with_used_files Sample2.empty_feeder []) []).
Proof.
  apply (getitem_empty_directory Sample2.empty_env Sample2.empty_feeder 0);
    try reflexivity; vm_compute; discriminate.
Defined.

Lemma getitem_loop_returns_witness :
  exists X' y' self',
    for_range Sample.env (range (batch_size Sample.feeder))
      ([[[[0%Q; 0%Q; 0%Q]]]; [[[0%Q; 0%Q; 0%Q]]]], replicate (Z.to_nat (captcha_length Sample.feeder))
             (replicate (Z.to_nat (batch_size Sample.feeder))
                (replicate (length (alphabet Sample.feeder)) 0%Z)))
      Sample.feeder
    = (Ok (X', y'), self')
    /\ length (batch Sample.env Sample.feeder) = Z.to_nat (batch_size Sample.feeder)
    /\ self' = run (Batch.inputs Sample.env Sample.feeder) Sample.feeder.
Proof.
  apply (getitem_loop_returns Sample.env Sample.feeder [[[[0%Q; 0%Q; 0%Q]]]; [[[0%Q; 0%Q; 0%Q]]]]).
  - reflexivity.
  - discriminate.
  - intros f. by exists Sample.pixel.
  - intros i. exists Sample.two_files. split; [reflexivity|]. split; [discriminate|].
    repeat constructor; vm_compute; lia.
  - repeat constructor; vm_compute; lia.
Defined.

Lemma short_label_rows_zero_witness :
  cell [[[1; 0]; [0; 1]]; [[0; 1]; [1; 0]]; [[0; 0]; [0; 0]]]%Z 2 0
  = Some (replicate (length (alphabet Sample2.feeder_long_length)) 0%Z)
  /\ row_sum (replicate (length (alphabet Sample2.feeder_long_length)) 0%Z) = 0%Z.
Proof.
  apply (short_label_rows_zero Sample.env Sample2.feeder_long_length 0
           [Sample.pixel; Sample.pixel]
           [[[1; 0]; [0; 1]]; [[0; 1]; [1; 0]]; [[0; 0]; [0; 0]]]%Z
           0%nat 2%nat "ab_0" "ab_0.png").
  - reflexivity.
  - reflexivity.
  - vm_compute. lia.
  - vm_compute. lia.
Defined.

Lemma label_round_trip_witness :
  exists (c : nat) (row : list Z),
    cell Sample2.labels 1 0 = Some row
    /\ alphabet Sample.feeder !! c = Some "b"%char
    /\ (forall c', (c' < c)%nat -> alphabet Sample.feeder !! c' <> Some "b"%char)
    /\ row !! c = Some 1%Z
    /\ (forall c', c' <> c -> (c' < length (alphabet Sample.feeder))%nat ->
          row !! c' = Some 0%Z).
Proof.
  apply (label_round_trip Sample.env Sample.feeder 0 [Sample.pixel; Sample.pixel]
           Sample2.labels 0%nat 1%nat "ab_0" "ab_0.png" "b"%char).
  - reflexivity.
  - reflexivity.
  - reflexivity.
  - vm_compute. repeat constructor.
Defined.

Lemma main_saves_only_on_interrupt_witness :
  exists x v ep cbs name,
    Args.output_model_name Sample.args = Some name
    /\ "model_resume.h5" = (name ++ "_resume.h5")%string
    /\ In (fit x v ep cbs) (fst (main Sample.interrupted Sample.args))
    /\ raises Sample.interrupted (fit x v ep cbs) = Some KeyboardInterrupt.
Proof.
  apply (main_saves_only_on_interrupt Sample.interrupted Sample.args "model_resume.h5").
  vm_compute. repeat first [left; reflexivity | right].
Defined.

Lemma main_fit_arguments_witness :
  exists width height length batch_size train_dataset validate_dataset name symbols
         captcha_symbols,
    Args.width Sample.args = Some width
    /\ Args.height Sample.args = Some height
    /\ Args.length Sample.args = Some length
    /\ Args.batch_size Sample.args = Some batch_size
    /\ Args.epochs Sample.args = Some 1%Z
    /\ Args.train_dataset Sample.args = Some train_dataset
    /\ Args.validate_dataset Sample.args = Some validate_dataset
    /\ Args.output_model_name Sample.args = Some name
    /\ Args.symbols Sample.args = Some symbols
    /\ readline_strip Sample.interrupted symbols = Ok captcha_symbols
    /\ ImageSequence.__init__ train_dataset batch_size length captcha_symbols
         width height (os_listdir Sample.interrupted train_dataset)
       = Ok (Sample.dataset "train")
    /\ ImageSequence.__init__ validate_dataset batch_size length captcha_symbols
         width height (os_listdir Sample.interrupted validate_dataset)
       = Ok (Sample.dataset "validate")
    /\ Sample.callbacks
       = [EarlyStopping 3; ModelCheckpoint (name ++ ".keras")%string false]
    /\ exists before after,
         fst (main Sample.interrupted Sample.args)
         = before ++ fit (Sample.dataset "train") (Sample.dataset "validate") 1
                       Sample.callbacks :: after
         /\ In (build (create_model_default length
                         (len (list_ascii_of_string captcha_symbols))
                         [height; width; 3%Z])) before
         /\ In (write_json (name ++ ".json")%string) before
         /\ existsb is_fit before = false.
Proof.
  apply (main_fit_arguments Sample.interrupted Sample.args).
  vm_compute. repeat first [left; reflexivity | right].
Defined.

Lemma main_returns_only_after_fit_witness :
  exists x v ep cbs name,
    Args.output_model_name Sample3.args = Some name
    /\ In (fit x v ep cbs) (fst (main Sample3.interrupted_save_returns Sample3.args))
    /\ ((raises Sample3.interrupted_save_returns (fit x v ep cbs) = None
         /\ existsb is_save_weights
              (fst (main Sample3.interrupted_save_returns Sample3.args)) = false)
        \/ (raises Sample3.interrupted_save_returns (fit x v ep cbs)
              = Some KeyboardInterrupt
            /\ In (save_weights (name ++ "_resume.h5")%string)
                 (fst (main Sample3.interrupted_save_returns Sample3.args))
            /\ raises Sample3.interrupted_save_returns
                 (save_weights (name ++ "_resume.h5")%string) = None)).
Proof.
  apply (main_returns_only_after_fit Sample3.interrupted_save_returns Sample3.args).
  reflexivity.
Defined.
